(** * fetch-mock: the request-resolution pipeline of [src/lib/fetch-handler.js]

    A shallow embedding of [resolve], [fetchHandler], [executeRouter],
    [generateResponse], [router], [getNativeFetch] and [push], followed by
    the properties the specification states about them.

    JavaScript values are an inductive type; the mock instance ([this]) is a
    record; every effect of the source (the debug log, [console.warn], the
    two arrays [_calls] and [_holdingPromises], calls of user functions and
    of the collaborators) is threaded through an explicit world, with a small
    state-and-exception monad. *)

From Stdlib Require Import String List ZArith Bool Arith Lia.
Import ListNotations.
Local Open Scope string_scope.

(** ** JavaScript values *)

(** [options.signal]: only its [aborted] flag is read by the handler. *)
Record Signal := { aborted : bool }.

(** The [options] bag: the two properties the handler reads.  [None] is an
    absent ([undefined]) property. *)
Record Options := { method : option string; signal : option Signal }.

(** A request-like object (an instance of [config.Request]); the core never
    looks inside it. *)
Record Request := { request_url : string; request_method : string }.

(** The three argument lists with which [resolve] invokes a callable. *)
Inductive call_args : Type :=
| Args1 (request : Request)
| Args2 (url : string) (options : option Options)
| Args3 (url : string) (options : option Options) (request : option Request).

(** A synchronous completion: a returned value or a thrown one. *)
Inductive result (E A : Type) : Type :=
| Ret (a : A)
| Throw (e : E).
Arguments Ret {E A} a.
Arguments Throw {E A} e.

(** The state of a promise once the job queue has drained. *)
Inductive promise_state (V : Type) : Type :=
| Fulfilled (v : V)
| Rejected (e : V)
| Pending.
Arguments Fulfilled {V} v.
Arguments Rejected {V} e.
Arguments Pending {V}.

Set Warnings "-register-all".

(** Values a response descriptor can be.
    - [VObject throws isResponse label]: an object without a callable [then];
      [throws] is its [throws] property ([VUndefined] when absent),
      [isResponse] says whether [config.Response.prototype] is in its
      prototype chain;
    - [VFunction name throws body]: a callable, with its [throws] property;
    - [VThenable state]: an object whose [then] is a function, that settles
      as [state] says. *)
Inductive value : Type :=
| VUndefined
| VNull
| VBoolean (b : bool)
| VNumber (n : Z)
| VString (s : string)
| VError (name message : string)
| VObject (throws : value) (isResponse : bool) (label : string)
| VFunction (name : string) (throws : value)
            (body : call_args -> result value value)
| VThenable (state : promise_state value).

(** [typeof v === 'function'] *)
Definition is_function (v : value) : bool :=
  match v with
  | VFunction _ _ _ => true
  | _ => false
  end.

(** ToBoolean *)
Definition truthy (v : value) : bool :=
  match v with
  | VUndefined | VNull => false
  | VBoolean b => b
  | VNumber n => negb (n =? 0)%Z
  | VString s => negb (s =? "")
  | VError _ _ | VObject _ _ _ | VFunction _ _ _ | VThenable _ => true
  end.

(** [a || b] and [a && b] on values. *)
Definition js_or (a b : value) : value := if truthy a then a else b.
Definition js_and (a b : value) : value := if truthy a then b else a.

(** [v === 'always'] and the like: strict equality with a string literal. *)
Definition strict_eq_string (v : value) (s : string) : bool :=
  match v with
  | VString s' => s' =? s
  | _ => false
  end.

(** The TypeError of a property read on [null] or [undefined]; the wording
    of the message is the engine's. *)
Definition TypeError (prop : string) (v : value) : value :=
  VError "TypeError"
    ("Cannot read property '" ++ prop ++ "' of " ++
     match v with VNull => "null" | _ => "undefined" end).

(** [typeof v.then === 'function']; the property read throws on a nullish
    value. *)
Definition then_is_function (v : value) : result value bool :=
  match v with
  | VUndefined | VNull => Throw (TypeError "then" v)
  | VThenable _ => Ret true
  | _ => Ret false
  end.

(** [v.throws] *)
Definition get_throws (v : value) : result value value :=
  match v with
  | VUndefined | VNull => Throw (TypeError "throws" v)
  | VObject t _ _ => Ret t
  | VFunction _ t _ => Ret t
  | _ => Ret VUndefined
  end.

(** [config.Response.prototype.isPrototypeOf(v)] *)
Definition isPrototypeOf_Response (v : value) : bool :=
  match v with
  | VObject _ r _ => r
  | _ => false
  end.

(** What [await v] yields: a thenable is followed until it settles with
    something that is not a thenable (the promise resolution procedure). *)
Fixpoint await (v : value) : promise_state value :=
  match v with
  | VThenable (Fulfilled v') => await v'
  | VThenable (Rejected e) => Rejected e
  | VThenable Pending => Pending
  | _ => Fulfilled v
  end.

(** The promise of an async function whose body completes as [c]:
    [return x] resolves it with [x], a throw rejects it. *)
Definition async_completion (c : result value value) : promise_state value :=
  match c with
  | Ret v => await v
  | Throw e => Rejected e
  end.

(** Calling a value that is a function. *)
Definition call (f : value) (args : call_args) : result value value :=
  match f with
  | VFunction _ _ body => body args
  | _ => Throw (VError "TypeError" "response is not a function")
  end.

Definition function_name (f : value) : string :=
  match f with
  | VFunction n _ _ => n
  | _ => ""
  end.

(** [class AbortError extends Error] *)
Definition AbortError : value :=
  VError "AbortError" "The operation was aborted.".

(** [new Error(message)] *)
Definition Error (message : string) : value := VError "Error" message.

Definition error_name (v : value) : option string :=
  match v with
  | VError n _ => Some n
  | _ => None
  end.

(** ** The mock instance and the world *)

(** A registered route.  A matcher is user code: it returns a boolean or
    throws.  [responseIsFetch] is [None] when the route object does not carry
    the property. *)
Record Route := {
  matcher : string -> option Options -> option Request -> result value bool;
  response : value;
  identifier : string;
  responseIsFetch : option bool
}.

(** What [executeRouter] returns: the matched route object itself, or an
    object literal [{ response, responseIsFetch }]. *)
Inductive MatchResult : Type :=
| RouteObject (route : Route)
| Literal (response : value) (responseIsFetch : option bool).

Definition mr_response (m : MatchResult) : value :=
  match m with
  | RouteObject r => response r
  | Literal v _ => v
  end.

(** The destructuring default [responseIsFetch = false]. *)
Definition mr_responseIsFetch (m : MatchResult) : bool :=
  match m with
  | RouteObject r => match responseIsFetch r with Some b => b | None => false end
  | Literal _ (Some b) => b
  | Literal _ None => false
  end.

(** An entry of [_calls]: the array [[url, options]] with its three extra
    properties. *)
Record CallRecord := {
  call_url : string;
  call_options : option Options;
  call_request : option Request;
  call_identifier : option string;
  call_isUnmatched : option bool
}.

Record Config := {
  fallbackToNetwork : value;
  warnOnFallback : bool;
  fetch : value
}.

(** The object [this] of the handler's methods. *)
Record FetchMock := {
  config : Config;
  routes : list Route;
  fallbackResponse : value;
  realFetch : value;
  isSandbox : value;
  _calls : list CallRecord;
  _holdingPromises : list (promise_state unit)
}.

(** Everything the source does to its environment, in program order. *)
Inductive event : Type :=
| Debug (msg : string)
| Warn (msg : string)
| CallsPush (c : CallRecord)
| HoldingPush
| AddEventListener
| Settle (s : promise_state value)
| Done
| Invoke (name : string) (args : call_args)
| Build (url : string) (responseConfig : value).

Record World := { mock : FetchMock; log : list event }.

Definition emit (e : event) (w : World) : World :=
  {| mock := mock w; log := log w ++ [e] |}.

Definition with_calls (cs : list CallRecord) (m : FetchMock) : FetchMock :=
  {| config := config m; routes := routes m;
     fallbackResponse := fallbackResponse m; realFetch := realFetch m;
     isSandbox := isSandbox m; _calls := cs;
     _holdingPromises := _holdingPromises m |}.

Definition with_holdingPromises (hs : list (promise_state unit))
    (m : FetchMock) : FetchMock :=
  {| config := config m; routes := routes m;
     fallbackResponse := fallbackResponse m; realFetch := realFetch m;
     isSandbox := isSandbox m; _calls := _calls m;
     _holdingPromises := hs |}.

Definition with_routes (rs : list Route) (m : FetchMock) : FetchMock :=
  {| config := config m; routes := rs;
     fallbackResponse := fallbackResponse m; realFetch := realFetch m;
     isSandbox := isSandbox m; _calls := _calls m;
     _holdingPromises := _holdingPromises m |}.

(** ** A state-and-exception monad for the synchronous code *)

Definition M (A : Type) : Type := World -> result value A * World.

Definition ret {A} (a : A) : M A := fun w => (Ret a, w).
Definition throw {A} (e : value) : M A := fun w => (Throw e, w).
Definition bind {A B} (c : M A) (k : A -> M B) : M B :=
  fun w => match c w with
           | (Ret a, w') => k a w'
           | (Throw e, w') => (Throw e, w')
           end.
Definition tell (e : event) : M unit := fun w => (Ret tt, emit e w).
Definition debug (msg : string) : M unit := tell (Debug msg).
Definition this : M FetchMock := fun w => (Ret (mock w), w).
Definition when (b : bool) (c : M unit) : M unit := if b then c else ret tt.
Definition lift {A} (c : result value A) : M A := fun w => (c, w).

Declare Scope js_scope.
Delimit Scope js_scope with js.
Notation "x <- c ;; k" := (bind c (fun x => k))
  (at level 61, c at next level, right associativity) : js_scope.
Notation "c ;; k" := (bind c (fun _ => k))
  (at level 61, right associativity) : js_scope.
Local Open Scope js_scope.

(** ** [push], [router], [getNativeFetch], [executeRouter] *)

(** [FetchMock.push]: builds the args array and appends it to [_calls]. *)
Definition push (url : string) (options : option Options)
    (request : option Request) (isUnmatched : option bool)
    (identifier : option string) : M unit :=
  fun w =>
    let args := {| call_url := url; call_options := options;
                   call_request := request; call_identifier := identifier;
                   call_isUnmatched := isUnmatched |} in
    (Ret tt,
     emit (CallsPush args)
       {| mock := with_calls (_calls (mock w) ++ [args]) (mock w);
          log := log w |}).

(** [Array.prototype.find] with a callback that may throw: the elements are
    tried in order up to the first the callback accepts; a throw of the
    callback ends the scan and is thrown by [find]. *)
Fixpoint array_find {A} (p : A -> result value bool) (l : list A)
    : result value (option A) :=
  match l with
  | [] => Ret None
  | x :: l' =>
      match p x with
      | Ret true => Ret (Some x)
      | Ret false => array_find p l'
      | Throw e => Throw e
      end
  end.

(** [FetchMock.router]: [routes.find], then the record of the match. *)
Definition router (url : string) (options : option Options)
    (request : option Request) : M (option Route) :=
  self <- this ;;
  route <- lift (array_find (fun route => matcher route url options request)
                   (routes self)) ;;
  match route with
  | Some route =>
      push url options request None (Some (identifier route)) ;;
      ret (Some route)
  | None => ret None
  end.

(** [FetchMock.getNativeFetch] *)
Definition getNativeFetch : M value :=
  self <- this ;;
  let func := js_or (realFetch self)
                (js_and (isSandbox self) (fetch (config self))) in
  if negb (truthy func) then
    throw (Error "fetch-mock: Falling back to network only available on gloabl fetch-mock, or by setting config.fetch on sandboxed fetch-mock")
  else ret func.

(** [(options && options.method) || 'GET'] *)
Definition method_or_GET (options : option Options) : string :=
  match options with
  | Some o => match method o with
              | Some m => if m =? "" then "GET" else m
              | None => "GET"
              end
  | None => "GET"
  end.

(** [FetchMock.executeRouter] *)
Definition executeRouter (url : string) (options : option Options)
    (request : option Request) : M MatchResult :=
  debug "Attempting to match request to defined routes" ;;
  self <- this ;;
  if strict_eq_string (fallbackToNetwork (config self)) "always" then
    debug "  Configured with fallbackToNetwork=always - passing through to fetch" ;;
    f <- getNativeFetch ;;
    ret (Literal f (Some true))
  else
    match_ <- router url options request ;;
    match match_ with
    | Some route =>
        debug "  Matching route found" ;;
        ret (RouteObject route)
    | None =>
        when (warnOnFallback (config self))
          (tell (Warn ("Unmatched " ++ method_or_GET options ++ " to " ++ url))) ;;
        push url options request (Some true) None ;;
        if truthy (fallbackResponse self) then
          debug "  No matching route found - using fallbackResponse" ;;
          ret (Literal (fallbackResponse self) None)
        else if negb (truthy (fallbackToNetwork (config self))) then
          throw (Error ("fetch-mock: No fallback response defined for " ++
                        method_or_GET options ++ " to " ++ url))
        else
          debug "  Configured to fallbackToNetwork - passing through to fetch" ;;
          f <- getNativeFetch ;;
          ret (Literal f (Some true))
    end.

(** The record [router] pushes for a match, and the one [executeRouter]
    pushes when nothing matches. *)
Definition matched_call (url : string) (options : option Options)
    (request : option Request) (route : Route) : CallRecord :=
  {| call_url := url; call_options := options; call_request := request;
     call_identifier := Some (identifier route); call_isUnmatched := None |}.

Definition unmatched_call (url : string) (options : option Options)
    (request : option Request) : CallRecord :=
  {| call_url := url; call_options := options; call_request := request;
     call_identifier := None; call_isUnmatched := Some true |}.

(** What a call leaves in [_calls] when the routes are [rs]: the record of
    the match or of the absence of one, and nothing when a matcher throws. *)
Definition call_records (rs : list Route) (url : string)
    (options : option Options) (request : option Request) : list CallRecord :=
  match array_find (fun route => matcher route url options request) rs with
  | Ret (Some route) => [matched_call url options request route]
  | Ret None => [unmatched_call url options request]
  | Throw _ => []
  end.

(** ** Asynchronous functions *)

(** The body of an async function is synchronous code that ends with the
    state of the promise it returned; [async] turns a throw inside the body
    into a rejection.  The model runs one request until the job queue is
    empty, so a promise is described by its final state. *)
Definition Async : Type := World -> promise_state value * World.

Definition async (body : M (promise_state value)) : Async :=
  fun w => match body w with
           | (Ret s, w') => (s, w')
           | (Throw e, w') => (Rejected e, w')
           end.

(** [return v] inside an async function. *)
Definition return_ (v : value) : M (promise_state value) := ret (await v).

(** [x = await v; k x]: the body resumes with the settled value, rethrows a
    rejection, and never resumes on a promise that never settles. *)
Definition await_then (v : value) (k : value -> M (promise_state value))
    : M (promise_state value) :=
  match await v with
  | Fulfilled x => k x
  | Rejected e => throw e
  | Pending => ret Pending
  end.

(** Calling an async function gives its promise. *)
Definition start (a : Async) : M (promise_state value) :=
  fun w => let (p, w') := a w in (Ret p, w').

(** [x = await a(...); k x] *)
Definition await_call (a : Async) (k : value -> M (promise_state value))
    : M (promise_state value) :=
  p <- start a ;; await_then (VThenable p) k.

(** Invoking a callable response, with the call recorded in the log. *)
Definition invoke (f : value) (args : call_args) : M value :=
  tell (Invoke (function_name f) args) ;;
  lift (call f args).

(** ** [resolve] *)

(** The [while (true)] loop of [resolve]; [fuel] bounds the number of
    iterations, [None] means the bound was reached. *)
Fixpoint resolve_loop (fuel : nat) (responseIsFetch : bool) (url : string)
    (options : option Options) (request : option Request)
    (response : value) : M (option (promise_state value)) :=
  match fuel with
  | O => ret None
  | S fuel' =>
    if is_function response then
      debug "  Response is a function" ;;
      if responseIsFetch then
        match request with
        | Some rq =>
            debug "  > Calling fetch with Request instance" ;;
            v <- invoke response (Args1 rq) ;;
            s <- return_ v ;; ret (Some s)
        | None =>
            debug "  > Calling fetch with url and options" ;;
            v <- invoke response (Args2 url options) ;;
            s <- return_ v ;; ret (Some s)
        end
      else
        debug "  > Calling custom matcher function" ;;
        v <- invoke response (Args3 url options request) ;;
        s <- return_ v ;; ret (Some s)
    else
      isPromise <- lift (then_is_function response) ;;
      if (isPromise : bool) then
        debug "  Response is a promise" ;;
        debug "  > Resolving promise" ;;
        match await response with
        | Fulfilled response' =>
            resolve_loop fuel' responseIsFetch url options request response'
        | Rejected e => throw e
        | Pending => ret (Some Pending)
        end
      else
        debug "  Response is not a function or a promise" ;;
        debug "  > Returning response for conversion into Response instance" ;;
        s <- return_ response ;; ret (Some s)
  end.

(** Two iterations always suffice (see [resolve_loop_fuel]): what [await]
    yields is never a thenable. *)
Definition resolve_fuel : nat := 2.

(** [resolve] *)
Definition resolve (route : MatchResult) (url : string)
    (options : option Options) (request : option Request) : Async :=
  async (
    debug "Recursively resolving function and promise responses" ;;
    r <- resolve_loop resolve_fuel (mr_responseIsFetch route) url options
           request (mr_response route) ;;
    match r with
    | Some s => ret s
    | None => ret Pending
    end).

(** ** [generateResponse] and [fetchHandler] *)

(** The triple [requestUtils.normalizeRequest] returns. *)
Record NormalizedRequest := {
  nr_url : string;
  nr_options : option Options;
  nr_request : option Request
}.

(** [res] and [rej] of a promise: only the first settlement counts. *)
Definition settle (s outer : promise_state value) : promise_state value :=
  match outer with
  | Pending => s
  | _ => outer
  end.

(** Resolving the holding promise at index [i] (the [done] captured from its
    executor); a second call changes nothing. *)
Fixpoint resolve_at (i : nat) (hs : list (promise_state unit))
    : list (promise_state unit) :=
  match hs, i with
  | [], _ => []
  | h :: t, O => match h with Pending => Fulfilled tt | _ => h end :: t
  | h :: t, S j => h :: resolve_at j t
  end.

(** [this._holdingPromises.push(new Promise(res => (done = res)))]; the
    result is the index [done] refers to. *)
Definition holdingPush : M nat :=
  fun w =>
    let hs := _holdingPromises (mock w) in
    (Ret (length hs),
     emit HoldingPush
       {| mock := with_holdingPromises (hs ++ [Pending]) (mock w);
          log := log w |}).

Definition done (i : nat) : M unit :=
  fun w =>
    (Ret tt,
     emit Done
       {| mock := with_holdingPromises
                    (resolve_at i (_holdingPromises (mock w))) (mock w);
          log := log w |}).

(** [res(v)] / [rej(e)] on the promise [fetchHandler] returns, whose state so
    far is [outer]. *)
Definition res (v : value) (outer : promise_state value)
    : M (promise_state value) :=
  tell (Settle (await v)) ;; ret (settle (await v) outer).

Definition rej (e : value) (outer : promise_state value)
    : M (promise_state value) :=
  tell (Settle (Rejected e)) ;; ret (settle (Rejected e) outer).

(** The closure [abort] of the executor. *)
Definition abort (i : nat) (outer : promise_state value)
    : M (promise_state value) :=
  outer' <- rej AbortError outer ;;
  done i ;;
  ret outer'.

Section Handler.

(** The two collaborators that live in other modules of the repository:
    [requestUtils.normalizeRequest(url, options, config.Request)], given
    either a URL string or a request-like object, and
    [responseBuilder({ url, responseConfig, fetchMock, route })].  Both may
    throw. *)
Variable normalizeRequest :
  string + Request -> option Options -> result value NormalizedRequest.
Variable responseBuilder :
  string -> value -> FetchMock -> MatchResult -> result value value.

(** [FetchMock.generateResponse] *)
Definition generateResponse (route : MatchResult) (url : string)
    (options : option Options) (request : option Request) : Async :=
  async (
    await_call (resolve route url options request) (fun response =>
      throws <- lift (get_throws response) ;;
      if truthy throws && negb (is_function response) then
        debug "response.throws is defined - throwing an error" ;;
        throw throws
      else if isPrototypeOf_Response response then
        debug "response is already a Response instance - returning it" ;;
        return_ response
      else
        self <- this ;;
        tell (Build url response) ;;
        built <- lift (responseBuilder url response self route) ;;
        return_ built)).

(** The executor [(res, rej) => { ... }] of the promise [fetchHandler]
    returns; [done_] is the index of the holding promise [done] resolves.
    The result is the final state of the promise.  The signal is read as it
    is at call time: the listener given to [addEventListener] is recorded in
    the log and never run, so that a signal that fires after the call is
    outside the model.  What is stated below about the state in which the
    promise ends is stated for a call without a signal or with a signal that
    is already aborted. *)
Definition executor (route : MatchResult) (url : string)
    (options : option Options) (request : option Request) (done_ : nat)
    : M (promise_state value) :=
  outer <- match options with
           | Some {| signal := Some sig |} =>
               debug "options.signal exists - setting up fetch aborting" ;;
               outer <- (if aborted sig then
                           debug "options.signal is already aborted- abort the fetch" ;;
                           abort done_ Pending
                         else ret Pending) ;;
               tell AddEventListener ;;
               ret outer
           | _ => ret Pending
           end ;;
  generated <- start (generateResponse route url options request) ;;
  match generated with
  | Fulfilled v => outer' <- res v outer ;; done done_ ;; ret outer'
  | Rejected e => outer' <- rej e outer ;; done done_ ;; ret outer'
  | Pending => ret outer
  end.

(** [FetchMock.fetchHandler].  [Ret p]: the promise handed to the caller,
    given by its final state; [Throw e]: a synchronous throw, no promise is
    returned. *)
Definition fetchHandler (url : string + Request) (options : option Options)
    : M (promise_state value) :=
  debug "**HANDLING NEW FETCH**" ;;
  n <- lift (normalizeRequest url options) ;;
  let url := nr_url n in
  let options := nr_options n in
  let request := nr_request n in
  route <- executeRouter url options request ;;
  done_ <- holdingPush ;;
  executor route url options request done_.

(** A series of calls of the entry point, one after the other.  Each call
    is run to its end before the next; [_calls] is only written in the
    synchronous part of a call, so its order does not depend on that. *)
Fixpoint fetchAll (calls : list ((string + Request) * option Options))
    (w : World) : World :=
  match calls with
  | [] => w
  | (url, options) :: calls' =>
      fetchAll calls' (snd (fetchHandler url options w))
  end.

(** The records a call of the entry point is expected to add: one if the
    request gets through normalization and the scan of the routes. *)
Definition recorded (rs : list Route)
    (c : (string + Request) * option Options) : list CallRecord :=
  match normalizeRequest (fst c) (snd c) with
  | Ret n => call_records rs (nr_url n) (nr_options n) (nr_request n)
  | Throw _ => []
  end.

End Handler.

(** ** Observations on the log *)

Local Open Scope list_scope.

(** The calls of callables recorded in a log, oldest first. *)
Fixpoint invocations (l : list event) : list (string * call_args) :=
  match l with
  | [] => []
  | Invoke name args :: l' => (name, args) :: invocations l'
  | _ :: l' => invocations l'
  end.

(** The responses handed to the Response Builder, oldest first. *)
Fixpoint builds (l : list event) : list (string * value) :=
  match l with
  | [] => []
  | Build url c :: l' => (url, c) :: builds l'
  | _ :: l' => builds l'
  end.

(** The events of the routing step, of response generation and of the
    executor, and the registration of the holding promise. *)
Definition routing_event (e : event) : bool :=
  match e with
  | CallsPush _ | Warn _ => true
  | Debug msg => msg =? "Attempting to match request to defined routes"
  | _ => false
  end.

Definition generation_event (e : event) : bool :=
  match e with
  | Invoke _ _ | Build _ _ | Settle _ | Done | AddEventListener => true
  | Debug msg => msg =? "Recursively resolving function and promise responses"
  | _ => false
  end.

Definition is_HoldingPush (e : event) : bool :=
  match e with
  | HoldingPush => true
  | _ => false
  end.

Definition routing_phase (e : event) : bool :=
  negb (generation_event e) && negb (is_HoldingPush e).

Definition generation_phase (e : event) : bool :=
  negb (routing_event e) && negb (is_HoldingPush e).

(** What [resolve] itself may log: its debug lines and the calls it makes. *)
Definition resolve_event (e : event) : bool :=
  match e with
  | Debug _ | Invoke _ _ => generation_phase e
  | _ => false
  end.

(** The position of the first event of a log that satisfies [p]. *)
Fixpoint index_of (p : event -> bool) (l : list event) : option nat :=
  match l with
  | [] => None
  | e :: l' => if p e then Some O else option_map S (index_of p l')
  end.

Definition nullish (v : value) : Prop := v = VUndefined \/ v = VNull.

Definition is_TypeError (v : value) : Prop := error_name v = Some "TypeError".

(** ** Vocabulary of the proofs *)

(** [c] appends to the log only events that satisfy [P], and takes the mock
    to one related to it by [R]. *)
Definition steps (P : event -> Prop) (R : FetchMock -> FetchMock -> Prop)
    {X} (c : World -> X * World) : Prop :=
  forall w, exists l,
    log (snd (c w)) = log w ++ l /\ Forall P l /\ R (mock w) (mock (snd (c w))).

(** The mock up to one of its two arrays. *)
Definition same_but_calls (m m' : FetchMock) : Prop :=
  with_calls [] m = with_calls [] m'.
Definition same_but_holdingPromises (m m' : FetchMock) : Prop :=
  with_holdingPromises [] m = with_holdingPromises [] m'.

(** [c] only appends to the log; [c] appends to it and [e] comes first. *)
Definition extends {X} (c : World -> X * World) : Prop :=
  steps (fun _ => True) (fun _ _ => True) c.

Definition starts_with {X} (e : event) (c : World -> X * World) : Prop :=
  forall w, exists l, log (snd (c w)) = log w ++ e :: l.

(** The world once [fetchHandler] has been entered. *)
Definition entered (w : World) : World :=
  emit (Debug "**HANDLING NEW FETCH**") w.

(** The world [executeRouter] leaves when nothing matches. *)
Definition unmatched_world url options request (w : World) : World :=
  {| mock := with_calls
               (_calls (mock w) ++ [unmatched_call url options request])
               (mock w);
     log := log w ++
            Debug "Attempting to match request to defined routes" ::
            (if warnOnFallback (config (mock w))
             then [Warn ("Unmatched " ++ method_or_GET options ++ " to " ++ url)%string]
             else []) ++
            [CallsPush (unmatched_call url options request)] |}.

(** ** Further observations *)

(** The lines written with [console.warn], oldest first. *)
Fixpoint warnings (l : list event) : list string :=
  match l with
  | [] => []
  | Warn msg :: l' => msg :: warnings l'
  | _ :: l' => warnings l'
  end.

(** [options && options.signal && options.signal.aborted] *)
Definition already_aborted (options : option Options) : bool :=
  match options with
  | Some {| signal := Some sig |} => aborted sig
  | _ => false
  end.

(** The events of the executor itself, around response generation. *)
Definition executor_event (e : event) : bool :=
  match e with
  | Debug _ | Settle _ | Done | AddEventListener => true
  | _ => false
  end.

(** [options && options.signal]: the call brings a signal. *)
Definition has_signal (options : option Options) : bool :=
  match options with
  | Some {| signal := Some _ |} => true
  | _ => false
  end.

(** A promise that is no longer pending. *)
Definition settled {V} (p : promise_state V) : bool :=
  match p with
  | Pending => false
  | _ => true
  end.

(** ** Sample collaborators and responders *)

Module Sample.

(** A normalizer with the three call signatures of section 4.1. *)
Definition normalize (url : string + Request) (options : option Options)
    : result value NormalizedRequest :=
  match url with
  | inl s => Ret {| nr_url := s; nr_options := options; nr_request := None |}
  | inr r =>
      Ret {| nr_url := request_url r;
             nr_options :=
               Some {| method := Some (request_method r);
                       signal := match options with
                                 | Some o => signal o
                                 | None => None
                                 end |};
             nr_request := Some r |}
  end.

(** A builder that wraps whatever it is given. *)
Definition build (url : string) (responseConfig : value)
    (fetchMock : FetchMock) (route : MatchResult) : result value value :=
  Ret (VObject VUndefined true url).

Definition ok : value := VNumber 200.
Definition inner : value := VFunction "inner" VUndefined (fun _ => Ret ok).
Definition outer : value := VFunction "outer" VUndefined (fun _ => Ret inner).

(** A responder that tells how it was called. *)
Definition echo : value :=
  VFunction "echo" VUndefined
    (fun args => match args with
                 | Args1 _ => Ret (VString "request")
                 | Args2 _ _ => Ret (VString "url, options")
                 | Args3 _ _ _ => Ret (VString "url, options, request")
                 end).

Definition boom : value := VError "Error" "boom".

(** The literal [{ throws: new Error("boom") }]. *)
Definition marker : value := VObject boom false "marker".

(** A spy, callable and with a [throws] property, and a responder that
    returns it. *)
Definition spy : value := VFunction "spy" boom (fun _ => Ret ok).
Definition make_spy : value := VFunction "makeSpy" VUndefined (fun _ => Ret spy).

(** A responder that returns nothing, and a promise for [null]. *)
Definition noop : value := VFunction "noop" VUndefined (fun _ => Ret VUndefined).
Definition promised_null : value := VThenable (Fulfilled VNull).

(** A promise for the responder [echo]. *)
Definition promised_echo : value := VThenable (Fulfilled echo).

Definition cfg : Config :=
  {| fallbackToNetwork := VBoolean false; warnOnFallback := false;
     fetch := VUndefined |}.

Definition users (response : value) : Route :=
  {| matcher := fun url _ _ => Ret (url =? "/users"); response := response;
     identifier := "users"; responseIsFetch := None |}.

Definition any (response : value) : Route :=
  {| matcher := fun _ _ _ => Ret true; response := response;
     identifier := "any"; responseIsFetch := None |}.

Definition instance (rs : list Route) : FetchMock :=
  {| config := cfg; routes := rs; fallbackResponse := VUndefined;
     realFetch := VUndefined; isSandbox := VBoolean false;
     _calls := []; _holdingPromises := [] |}.

Definition world (rs : list Route) : World :=
  {| mock := instance rs; log := [] |}.

(** A mock that always passes through to the network, here [echo]. *)
Definition passthrough (rs : list Route) : World :=
  {| mock := {| config := {| fallbackToNetwork := VString "always";
                             warnOnFallback := false; fetch := VUndefined |};
                routes := rs; fallbackResponse := VUndefined;
                realFetch := echo; isSandbox := VBoolean false;
                _calls := []; _holdingPromises := [] |};
     log := [] |}.

(** A mock with a fallback response and a network function. *)
Definition with_fallback (rs : list Route) : World :=
  {| mock := {| config := {| fallbackToNetwork := VBoolean true;
                             warnOnFallback := true; fetch := VUndefined |};
                routes := rs; fallbackResponse := VString "fallback";
                realFetch := echo; isSandbox := VBoolean false;
                _calls := []; _holdingPromises := [] |};
     log := [] |}.

Definition aborted_options : option Options :=
  Some {| method := None; signal := Some {| aborted := true |} |}.

Definition post : Request :=
  {| request_url := "/users"; request_method := "POST" |}.

End Sample.

(** Further sample data. *)
Module More.

(** A Response as the network gives it, and a network function that
    answers a request object with a promise for it. *)
Definition network_response : value := VObject VUndefined true "from network".
Definition network : value :=
  VFunction "fetch" VUndefined
    (fun args => match args with
                 | Args1 _ => Ret (VThenable (Fulfilled network_response))
                 | _ => Ret VNull
                 end).

(** A mock that always passes through to [network]. *)
Definition networked : World :=
  {| mock := {| config := {| fallbackToNetwork := VString "always";
                             warnOnFallback := false; fetch := VUndefined |};
                routes := []; fallbackResponse := VUndefined;
                realFetch := network; isSandbox := VBoolean false;
                _calls := []; _holdingPromises := [Pending] |};
     log := [] |}.

(** Mocks told to use the network, with no network function to use. *)
Definition always_without_network : World :=
  {| mock := {| config := {| fallbackToNetwork := VString "always";
                             warnOnFallback := false; fetch := VUndefined |};
                routes := []; fallbackResponse := VUndefined;
                realFetch := VUndefined; isSandbox := VBoolean false;
                _calls := []; _holdingPromises := [] |};
     log := [] |}.

Definition fallback_without_network : World :=
  {| mock := {| config := {| fallbackToNetwork := VBoolean true;
                             warnOnFallback := false; fetch := VUndefined |};
                routes := []; fallbackResponse := VUndefined;
                realFetch := VUndefined; isSandbox := VBoolean false;
                _calls := []; _holdingPromises := [] |};
     log := [] |}.

(** A promise that never settles, one that rejects, a responder that
    throws, and a responder that promises the text "body". *)
Definition never : value := VThenable Pending.
Definition rejected : value := VThenable (Rejected Sample.boom).
Definition failing : value :=
  VFunction "failing" VUndefined (fun _ => Throw Sample.boom).
Definition body : value := VString "body".
Definition promising : value :=
  VFunction "promising" VUndefined
    (fun _ => Ret (VThenable (Fulfilled body))).

(** A route whose matcher throws. *)
Definition broken : Route :=
  {| matcher := fun _ _ _ => Throw Sample.boom; response := Sample.ok;
     identifier := "broken"; responseIsFetch := None |}.

End More.

(** ** Reasoning about the monad *)

Ltac unfold_m :=
  unfold bind, ret, throw, tell, debug, this, when, lift, invoke, return_,
    await_call, start, await_then, async, emit in *.

Ltac run_m :=
  cbn -[array_find getNativeFetch String.append String.eqb];
  unfold emit;
  cbn -[array_find getNativeFetch String.append String.eqb].

Ltac same_world := run_m; rewrite <- ?app_assoc; run_m; reflexivity.

Lemma mock_emit e w : mock (emit e w) = mock w.
Proof. reflexivity. Qed.

Lemma log_emit e w : log (emit e w) = log w ++ [e].
Proof. reflexivity. Qed.

Lemma await_settled (v v' : value) :
  await v = Fulfilled v' -> then_is_function v' <> Ret true.
Proof.
  revert v v'.
  fix IH 1.
  intros v v' H.
  destruct v; simpl in H; try (inversion H; subst; simpl; discriminate).
  destruct state as [u | e | ]; try discriminate.
  exact (IH u v' H).
Qed.

Lemma await_function (v : value) :
  is_function v = true -> await v = Fulfilled v.
Proof. destruct v; simpl; congruence. Qed.

Lemma resolve_loop_settled (n : nat) rif url options request v w :
  then_is_function v <> Ret true ->
  resolve_loop (S n) rif url options request v w =
  resolve_loop 1 rif url options request v w.
Proof.
  intros H. simpl.
  destruct (is_function v); [reflexivity|].
  unfold_m.
  destruct (then_is_function v) as [[|]|e]; try reflexivity.
  congruence.
Qed.

Lemma resolve_loop_fuel (n : nat) rif url options request v w :
  resolve_loop (resolve_fuel + n) rif url options request v w =
  resolve_loop resolve_fuel rif url options request v w.
Proof.
  unfold resolve_fuel.
  change (2 + n) with (S (S n)).
  cbn [resolve_loop].
  destruct (is_function v); [reflexivity|].
  unfold_m.
  destruct (then_is_function v) as [[|]|e]; try reflexivity.
  destruct (await v) as [v'| |] eqn:E; try reflexivity.
  apply await_settled in E.
  change (resolve_loop (S n) rif url options request v'
     (emit (Debug "  > Resolving promise") (emit (Debug "  Response is a promise") w))
   = resolve_loop 1 rif url options request v'
     (emit (Debug "  > Resolving promise") (emit (Debug "  Response is a promise") w))).
  now apply resolve_loop_settled.
Qed.

Lemma resolve_loop_total rif url options request v w :
  fst (resolve_loop resolve_fuel rif url options request v w) <> Ret None.
Proof.
  unfold resolve_fuel.
  cbn [resolve_loop].
  destruct (is_function v).
  - unfold_m. destruct rif; [destruct request|]; cbn;
      match goal with |- context [call ?f ?a] => destruct (call f a) end;
      cbn; discriminate.
  - unfold_m.
    destruct (then_is_function v) as [[|]|e] eqn:T; cbn; try discriminate.
    destruct (await v) as [v'| |] eqn:E; cbn; try discriminate.
    apply await_settled in E.
    destruct (is_function v').
    + destruct rif; [destruct request|]; cbn;
      match goal with |- context [call ?f ?a] => destruct (call f a) end;
      cbn; discriminate.
    + destruct (then_is_function v') as [[|]|e']; cbn; try discriminate.
      congruence.
Qed.

Lemma invocations_app (l1 l2 : list event) :
  invocations (l1 ++ l2) = invocations l1 ++ invocations l2.
Proof.
  induction l1 as [|e l1 IH]; [reflexivity|].
  destruct e; simpl; rewrite ?IH; reflexivity.
Qed.

Lemma builds_app (l1 l2 : list event) :
  builds (l1 ++ l2) = builds l1 ++ builds l2.
Proof.
  induction l1 as [|e l1 IH]; [reflexivity|].
  destruct e; simpl; rewrite ?IH; reflexivity.
Qed.

(** ** [resolve] *)

(** What [resolve] does when its loop reaches a callable, at once or after
    awaiting a promise: one call, whose completion settles the promise
    [resolve] returned. *)
Lemma resolve_callable route url options request w name throws body :
  await (mr_response route) = Fulfilled (VFunction name throws body) ->
  let args := if mr_responseIsFetch route
              then match request with
                   | Some rq => Args1 rq
                   | None => Args2 url options
                   end
              else Args3 url options request in
  fst (resolve route url options request w) = async_completion (body args) /\
  invocations (log (snd (resolve route url options request w))) =
    invocations (log w) ++ [(name, args)].
Proof.
  intros H. unfold resolve, resolve_fuel. cbn [resolve_loop].
  destruct (mr_response route) as [ | | | | | | | |st] eqn:R;
    cbn in H; try discriminate.
  - injection H as -> -> ->. cbn [is_function].
    destruct (mr_responseIsFetch route); [destruct request as [rq|]|];
      unfold_m; cbn;
      match goal with |- context [body ?a] => destruct (body a) end; cbn;
      rewrite ?invocations_app; cbn; rewrite ?app_nil_r; auto.
  - destruct st as [v| |]; try discriminate.
    cbn [is_function then_is_function]. unfold_m. cbn [await]. rewrite H.
    cbn [is_function].
    destruct (mr_responseIsFetch route); [destruct request as [rq|]|];
      cbn;
      match goal with |- context [body ?a] => destruct (body a) end; cbn;
      rewrite ?invocations_app; cbn; rewrite ?app_nil_r; auto.
Qed.

(** A function returned by a responder is what [resolve] settles with: the
    loop is left by the [return] of the call, not re-entered. *)
Lemma resolve_returned_function route url options request w name throws body g :
  mr_response route = VFunction name throws body ->
  mr_responseIsFetch route = false ->
  body (Args3 url options request) = Ret g ->
  is_function g = true ->
  fst (resolve route url options request w) = Fulfilled g.
Proof.
  intros R F B G.
  destruct (resolve_callable route url options request w name throws body)
    as [E _]; [now rewrite R|].
  rewrite F, B in E. rewrite E. simpl. now apply await_function.
Qed.

(** C1 (the code departs from it): a function returning a function returning
    the literal 200 does not resolve to 200.  [resolve] calls the outer
    function once and settles with the inner function, which is never
    called. *)
Theorem resolve_function_returning_function :
  forall url options request w,
    let route := RouteObject (Sample.users Sample.outer) in
    fst (resolve route url options request w) = Fulfilled Sample.inner /\
    fst (resolve route url options request w) <> Fulfilled Sample.ok /\
    invocations (log (snd (resolve route url options request w))) =
      invocations (log w) ++ [("outer", Args3 url options request)].
Proof.
  intros url options request w route.
  destruct (resolve_callable route url options request w "outer" VUndefined
              (fun _ => Ret Sample.inner) eq_refl) as (E & I).
  split; [exact E | split; [rewrite E; discriminate | exact I]].
Qed.

(** C7: the arguments [resolve] passes when its loop reaches a callable (the
    response itself, or what a promise response settled with).  With
    [responseIsFetch] and a request object: the request alone; with
    [responseIsFetch] and no request object: [(url, options)]; otherwise
    [(url, options, request)].  In each case the callable is called exactly
    once and its completion settles the promise of [resolve]. *)
Theorem resolve_call_arguments :
  forall route url options request w name throws body,
    await (mr_response route) = Fulfilled (VFunction name throws body) ->
    let w' := snd (resolve route url options request w) in
    let settled := fst (resolve route url options request w) in
    (mr_responseIsFetch route = true ->
     forall rq, request = Some rq ->
       invocations (log w') = invocations (log w) ++ [(name, Args1 rq)] /\
       settled = async_completion (body (Args1 rq))) /\
    (mr_responseIsFetch route = true ->
     request = None ->
       invocations (log w') =
         invocations (log w) ++ [(name, Args2 url options)] /\
       settled = async_completion (body (Args2 url options))) /\
    (mr_responseIsFetch route = false ->
       invocations (log w') =
         invocations (log w) ++ [(name, Args3 url options request)] /\
       settled = async_completion (body (Args3 url options request))).
Proof.
  intros route url options request w name throws body R.
  destruct (resolve_callable route url options request w name throws body R)
    as (E & I).
  cbv zeta. repeat split; intros; subst;
    match goal with H : mr_responseIsFetch _ = _ |- _ => rewrite H in * end;
    assumption.
Qed.

Lemma resolve_call_arguments_witness :
  fst (resolve (Literal Sample.echo (Some true)) "/users" None
         (Some Sample.post) (Sample.world [])) =
    Fulfilled (VString "request") /\
  fst (resolve (Literal Sample.echo (Some true)) "/users" None
         None (Sample.world [])) =
    Fulfilled (VString "url, options") /\
  fst (resolve (Literal Sample.echo None) "/users" None
         (Some Sample.post) (Sample.world [])) =
    Fulfilled (VString "url, options, request") /\
  fst (resolve (Literal Sample.promised_echo None) "/users" None
         (Some Sample.post) (Sample.world [])) =
    Fulfilled (VString "url, options, request").
Proof.
  split; [|split; [|split]].
  - destruct (resolve_call_arguments (Literal Sample.echo (Some true)) "/users"
                None (Some Sample.post) (Sample.world []) _ _ _ eq_refl)
      as (H & _ & _).
    exact (proj2 (H eq_refl Sample.post eq_refl)).
  - destruct (resolve_call_arguments (Literal Sample.echo (Some true)) "/users"
                None None (Sample.world []) _ _ _ eq_refl)
      as (_ & H & _).
    exact (proj2 (H eq_refl eq_refl)).
  - destruct (resolve_call_arguments (Literal Sample.echo None) "/users"
                None (Some Sample.post) (Sample.world []) _ _ _ eq_refl)
      as (_ & _ & H).
    exact (proj2 (H eq_refl)).
  - destruct (resolve_call_arguments (Literal Sample.promised_echo None)
                "/users" None (Some Sample.post) (Sample.world []) _ _ _
                eq_refl)
      as (_ & _ & H).
    exact (proj2 (H eq_refl)).
Defined.

(** ** What a computation may log and what it leaves of the mock *)

Section Steps.

Variable P : event -> Prop.
Variable R : FetchMock -> FetchMock -> Prop.
Hypothesis R_refl : forall m, R m m.
Hypothesis R_trans : forall a b c, R a b -> R b c -> R a c.

Lemma steps_ret {A} (a : A) : steps P R (ret a).
Proof. intros w. exists []. cbn. rewrite app_nil_r. auto. Qed.

Lemma steps_throw {A} (e : value) : steps P R (@throw A e).
Proof. intros w. exists []. cbn. rewrite app_nil_r. auto. Qed.

Lemma steps_lift {A} (c : result value A) : steps P R (lift c).
Proof. intros w. exists []. cbn. rewrite app_nil_r. auto. Qed.

Lemma steps_this : steps P R this.
Proof. intros w. exists []. cbn. rewrite app_nil_r. auto. Qed.

Lemma steps_tell (e : event) : P e -> steps P R (tell e).
Proof. intros H w. exists [e]. cbn. auto. Qed.

Lemma steps_bind {A B} (c : M A) (k : A -> M B) :
  steps P R c -> (forall a, steps P R (k a)) -> steps P R (bind c k).
Proof.
  intros Hc Hk w. unfold bind.
  destruct (Hc w) as (l1 & L1 & F1 & R1).
  destruct (c w) as [[a|e] w1]; cbn in *.
  - destruct (Hk a w1) as (l2 & L2 & F2 & R2).
    exists (l1 ++ l2). rewrite L2, L1, app_assoc.
    split; [reflexivity|]. split; [now apply Forall_app|eauto].
  - exists l1. auto.
Qed.

Lemma steps_async (body : M (promise_state value)) :
  steps P R body -> steps P R (async body).
Proof.
  intros H w. unfold async. destruct (H w) as (l & L & F & Rm).
  destruct (body w) as [[s|e] w1]; exists l; auto.
Qed.

Lemma steps_start (a : Async) : steps P R a -> steps P R (start a).
Proof.
  intros H w. unfold start. destruct (H w) as (l & L & F & Rm).
  destruct (a w) as [p w1]. exists l. auto.
Qed.

Lemma steps_push url options request isUnmatched identifier :
  (forall c, P (CallsPush c)) ->
  (forall cs m, R m (with_calls cs m)) ->
  steps P R (push url options request isUnmatched identifier).
Proof. intros HP HR w. eexists [_]. cbn. auto. Qed.

Lemma steps_holdingPush :
  P HoldingPush ->
  (forall m, R m (with_holdingPromises (_holdingPromises m ++ [Pending]) m)) ->
  steps P R holdingPush.
Proof. intros HP HR w. exists [HoldingPush]. cbn. auto. Qed.

Lemma steps_done i :
  P Done ->
  (forall j m,
     R m (with_holdingPromises (resolve_at j (_holdingPromises m)) m)) ->
  steps P R (done i).
Proof. intros HP HR w. exists [Done]. cbn. auto. Qed.

End Steps.

Ltac steps_side :=
  unfold same_but_calls, same_but_holdingPromises;
  solve [ reflexivity | intros; cbn in *; congruence | auto ].

Ltac steps_leaf :=
  first [ apply steps_ret; steps_side
        | apply steps_throw; steps_side
        | apply steps_lift; steps_side
        | apply steps_this; steps_side
        | apply steps_tell; steps_side
        | apply steps_push; steps_side
        | apply steps_holdingPush; steps_side
        | apply steps_done; steps_side ].

Ltac steps_go :=
  unfold debug, when, invoke, return_, await_call, await_then, res, rej, abort;
  repeat first
    [ assumption
    | match goal with H : forall _, _ |- steps _ _ _ => simple apply H end
    | steps_leaf
    | apply steps_bind; [steps_side | | intros ?]
    | apply steps_async
    | apply steps_start
    | match goal with
      | |- steps _ _ (if ?b then _ else _) => destruct b
      | |- steps _ _ (match ?x with _ => _ end) => destruct x
      end
    | solve [auto] ].

Lemma steps_weaken (P Q : event -> Prop) R {X} (c : World -> X * World) :
  (forall e, P e -> Q e) -> steps P R c -> steps Q R c.
Proof.
  intros H S w. destruct (S w) as (l & L & F & Rm). exists l.
  split; [exact L|]. split; [|exact Rm].
  eapply Forall_impl; eauto.
Qed.

Lemma resolve_loop_steps fuel rif url options request response :
  steps (fun e => resolve_event e = true) eq
    (resolve_loop fuel rif url options request response).
Proof.
  revert response.
  induction fuel as [|fuel IH]; intros response; cbn [resolve_loop]; steps_go.
Qed.

Lemma resolve_steps route url options request :
  steps (fun e => resolve_event e = true) eq
    (resolve route url options request).
Proof.
  unfold resolve. apply steps_async.
  pose proof resolve_loop_steps. steps_go.
Qed.

Lemma resolve_event_generation e :
  resolve_event e = true -> generation_phase e = true.
Proof. destruct e; cbn; congruence. Qed.

(** [resolve] leaves the mock alone and builds no response. *)
Lemma resolve_frame route url options request w :
  mock (snd (resolve route url options request w)) = mock w /\
  builds (log (snd (resolve route url options request w))) = builds (log w).
Proof.
  destruct (resolve_steps route url options request w) as (l & L & F & E).
  split; [now rewrite <- E|].
  rewrite L, builds_app.
  replace (builds l) with (@nil (string * value)); [now rewrite app_nil_r|].
  clear L. induction F as [|e l He _ IH]; [reflexivity|].
  destruct e; cbn in *; try discriminate; exact IH.
Qed.

Lemma generateResponse_steps responseBuilder route url options request :
  steps (fun e => generation_phase e = true) eq
    (generateResponse responseBuilder route url options request).
Proof.
  unfold generateResponse.
  pose proof (fun r u o q =>
                steps_weaken _ _ eq _ resolve_event_generation
                  (resolve_steps r u o q)).
  steps_go.
Qed.

Lemma executor_steps R responseBuilder route url options request done_ :
  (forall m, R m m) -> (forall a b c, R a b -> R b c -> R a c) ->
  (forall j m,
     R m (with_holdingPromises (resolve_at j (_holdingPromises m)) m)) ->
  steps (fun e => generation_phase e = true) R
    (executor responseBuilder route url options request done_).
Proof.
  intros Hr Ht Hd. unfold executor.
  assert (G : steps (fun e => generation_phase e = true) R
                (generateResponse responseBuilder route url options request)).
  { intros w.
    destruct (generateResponse_steps responseBuilder route url options
                request w) as (l & L & F & E).
    exists l. rewrite <- E. auto. }
  steps_go.
Qed.

Lemma resolve_at_length i hs : length (resolve_at i hs) = length hs.
Proof.
  revert i. induction hs as [|h hs IH]; intros [|i]; cbn; auto.
Qed.

Lemma getNativeFetch_steps P R :
  (forall m, R m m) -> (forall a b c, R a b -> R b c -> R a c) ->
  steps P R getNativeFetch.
Proof. intros Hr Ht. unfold getNativeFetch. steps_go. Qed.

Lemma router_steps url options request :
  steps (fun e => routing_phase e = true) same_but_calls
    (router url options request).
Proof. unfold router. steps_go. Qed.

Lemma executeRouter_steps url options request :
  steps (fun e => routing_phase e = true) same_but_calls
    (executeRouter url options request).
Proof.
  unfold executeRouter.
  assert (N : steps (fun e => routing_phase e = true) same_but_calls
                getNativeFetch)
    by (apply getNativeFetch_steps; steps_side).
  pose proof router_steps.
  steps_go.
Qed.

(** ** [router] and [executeRouter] *)

Lemma find_first {A} (p : A -> result value bool) (before : list A) (x : A)
    (after : list A) :
  (forall y, In y before -> p y = Ret false) -> p x = Ret true ->
  array_find p (before ++ x :: after) = Ret (Some x).
Proof.
  intros Hb Hx. induction before as [|y before IH]; simpl.
  - now rewrite Hx.
  - rewrite (Hb y (or_introl eq_refl)). apply IH.
    intros z Hz. apply Hb. now right.
Qed.

Lemma router_found url options request w route :
  array_find (fun r => matcher r url options request) (routes (mock w)) =
    Ret (Some route) ->
  router url options request w =
    (Ret (Some route),
     emit (CallsPush (matched_call url options request route))
       {| mock := with_calls
                    (_calls (mock w) ++ [matched_call url options request route])
                    (mock w);
          log := log w |}).
Proof. intros H. unfold router. unfold_m. cbn. rewrite H. reflexivity. Qed.

Lemma router_not_found url options request w :
  array_find (fun r => matcher r url options request) (routes (mock w)) =
    Ret None ->
  router url options request w = (Ret None, w).
Proof. intros H. unfold router. unfold_m. cbn. rewrite H. reflexivity. Qed.

(** A matcher that throws: [router] throws, and has pushed nothing. *)
Lemma router_matcher_throws url options request w e :
  array_find (fun r => matcher r url options request) (routes (mock w)) =
    Throw e ->
  router url options request w = (Throw e, w).
Proof. intros H. unfold router. unfold_m. cbn. rewrite H. reflexivity. Qed.

Lemma getNativeFetch_world w : snd (getNativeFetch w) = w.
Proof.
  unfold getNativeFetch. unfold_m. cbn.
  destruct (negb _); reflexivity.
Qed.

Lemma getNativeFetch_run w w' :
  realFetch (mock w) = realFetch (mock w') ->
  isSandbox (mock w) = isSandbox (mock w') ->
  config (mock w) = config (mock w') ->
  getNativeFetch w = (fst (getNativeFetch w'), w).
Proof.
  intros E1 E2 E3. unfold getNativeFetch. unfold_m. cbn.
  rewrite E1, E2, E3.
  destruct (negb _); reflexivity.
Qed.

Arguments getNativeFetch : simpl never.


(** The result of [executeRouter] for [fallbackToNetwork === 'always']. *)
Lemma executeRouter_always url options request w :
  strict_eq_string (fallbackToNetwork (config (mock w))) "always" = true ->
  fst (executeRouter url options request w) =
    match fst (getNativeFetch w) with
    | Ret f => Ret (Literal f (Some true))
    | Throw e => Throw e
    end /\
  mock (snd (executeRouter url options request w)) = mock w.
Proof.
  intros A. unfold executeRouter. unfold_m. cbn. rewrite A.
  match goal with |- context [getNativeFetch ?w0] =>
    rewrite (getNativeFetch_run w0 w eq_refl eq_refl eq_refl) end.
  destruct (fst (getNativeFetch w)); cbn; auto.
Qed.

(** The result of [executeRouter] when a route matches. *)
Lemma executeRouter_matched url options request w route :
  strict_eq_string (fallbackToNetwork (config (mock w))) "always" = false ->
  array_find (fun r => matcher r url options request) (routes (mock w)) =
    Ret (Some route) ->
  executeRouter url options request w =
    (Ret (RouteObject route),
     {| mock := with_calls
                  (_calls (mock w) ++ [matched_call url options request route])
                  (mock w);
        log := log w ++
               [Debug "Attempting to match request to defined routes";
                CallsPush (matched_call url options request route);
                Debug "  Matching route found"] |}).
Proof.
  intros A H. unfold executeRouter.
  unfold bind at 1. unfold debug at 1, tell at 1.
  unfold bind at 1. unfold this at 1. cbn [mock emit]. rewrite A.
  unfold bind at 1.
  rewrite (router_found url options request
             (emit (Debug "Attempting to match request to defined routes") w)
             route H).
  unfold_m. same_world.
Qed.

Lemma executeRouter_unmatched url options request w :
  strict_eq_string (fallbackToNetwork (config (mock w))) "always" = false ->
  array_find (fun r => matcher r url options request) (routes (mock w)) =
    Ret None ->
  let w1 := unmatched_world url options request w in
  executeRouter url options request w =
    if truthy (fallbackResponse (mock w)) then
      (Ret (Literal (fallbackResponse (mock w)) None),
       emit (Debug "  No matching route found - using fallbackResponse") w1)
    else if negb (truthy (fallbackToNetwork (config (mock w)))) then
      (Throw (Error ("fetch-mock: No fallback response defined for " ++
                     method_or_GET options ++ " to " ++ url)%string), w1)
    else
      (match fst (getNativeFetch w) with
       | Ret f => Ret (Literal f (Some true))
       | Throw e => Throw e
       end,
       emit (Debug "  Configured to fallbackToNetwork - passing through to fetch") w1).
Proof.
  intros A H w1. unfold w1, unmatched_world, executeRouter, router, push.
  unfold_m. run_m. rewrite A. run_m. rewrite ?mock_emit, H.
  destruct (warnOnFallback (config (mock w))) eqn:W; run_m;
    (destruct (truthy (fallbackResponse (mock w))); [ same_world |]);
    (destruct (negb (truthy (fallbackToNetwork (config (mock w)))));
     [ same_world |]);
    match goal with |- context [getNativeFetch (Build_World ?m ?l)] =>
      rewrite (getNativeFetch_run (Build_World m l) w
                 eq_refl eq_refl eq_refl) end;
    destruct (fst (getNativeFetch w)); same_world.
Qed.

(** The result of [executeRouter] when a matcher throws. *)
Lemma executeRouter_matcher_throws url options request w e :
  strict_eq_string (fallbackToNetwork (config (mock w))) "always" = false ->
  array_find (fun r => matcher r url options request) (routes (mock w)) =
    Throw e ->
  executeRouter url options request w =
    (Throw e, emit (Debug "Attempting to match request to defined routes") w).
Proof.
  intros A H. unfold executeRouter.
  unfold bind at 1. unfold debug at 1, tell at 1.
  unfold bind at 1. unfold this at 1. cbn [mock emit]. rewrite A.
  unfold bind at 1.
  rewrite (router_matcher_throws url options request
             (emit (Debug "Attempting to match request to defined routes") w)
             e H).
  reflexivity.
Qed.

(** C5: whatever the registered routes, [router] returns the first route, in
    registration order, whose matcher accepts the request, whether or not
    later routes accept it too; it has pushed the call record that carries
    that route's identifier when it returns, and [executeRouter] then hands
    the route, with its response descriptor, to the caller. *)
Theorem router_first_match :
  forall url options request w before route after,
    routes (mock w) = before ++ route :: after ->
    (forall r, In r before -> matcher r url options request = Ret false) ->
    matcher route url options request = Ret true ->
    let record := matched_call url options request route in
    let w' := snd (router url options request w) in
    fst (router url options request w) = Ret (Some route) /\
    _calls (mock w') = _calls (mock w) ++ [record] /\
    log w' = log w ++ [CallsPush record] /\
    call_identifier record = Some (identifier route) /\
    (strict_eq_string (fallbackToNetwork (config (mock w))) "always" = false ->
     fst (executeRouter url options request w) = Ret (RouteObject route) /\
     mr_response (RouteObject route) = response route /\
     _calls (mock (snd (executeRouter url options request w))) =
       _calls (mock w) ++ [record]).
Proof.
  intros url options request w before route after Hr Hb Hm record w'.
  assert (F : array_find (fun r => matcher r url options request)
                (routes (mock w)) = Ret (Some route)).
  { rewrite Hr. now apply find_first. }
  subst w'. rewrite (router_found _ _ _ _ _ F).
  do 4 (split; [reflexivity|]).
  intros A. rewrite (executeRouter_matched _ _ _ _ _ A F).
  repeat split.
Qed.

Lemma router_first_match_witness :
  let w := Sample.world [Sample.users Sample.ok; Sample.any Sample.boom;
                         Sample.users Sample.inner] in
  fst (router "/users" None None w) = Ret (Some (Sample.users Sample.ok)) /\
  _calls (mock (snd (router "/users" None None w))) =
    [matched_call "/users" None None (Sample.users Sample.ok)].
Proof.
  cbv zeta.
  destruct (router_first_match "/users" None None
              (Sample.world [Sample.users Sample.ok; Sample.any Sample.boom;
                             Sample.users Sample.inner])
              [] (Sample.users Sample.ok)
              [Sample.any Sample.boom; Sample.users Sample.inner]
              eq_refl (fun r (H : In r []) => match H with end) eq_refl)
    as (H1 & H2 & _).
  split; [exact H1 | exact H2].
Defined.

(** C6: the decision order of [executeRouter].
    - With [fallbackToNetwork === 'always'] the result is the native fetch
      function with [responseIsFetch: true]; the route list plays no part
      and nothing is recorded.
    - Otherwise, when no route matches, an [isUnmatched] record is pushed;
      then a configured fallback response is returned whatever the network
      settings are, and the native fetch function is returned only when
      there is no fallback response and [fallbackToNetwork] is set.
    In no case does [executeRouter] call the network function. *)
Theorem executeRouter_decision_order :
  forall url options request w,
    let m := mock w in
    let r := executeRouter url options request w in
    let native := match fst (getNativeFetch w) with
                  | Ret f => Ret (Literal f (Some true))
                  | Throw e => Throw e
                  end in
    invocations (log (snd r)) = invocations (log w) /\
    (strict_eq_string (fallbackToNetwork (config m)) "always" = true ->
     fst r = native /\
     mock (snd r) = m /\
     forall rs,
       fst (executeRouter url options request
              {| mock := with_routes rs m; log := log w |}) = fst r) /\
    (strict_eq_string (fallbackToNetwork (config m)) "always" = false ->
     array_find (fun route => matcher route url options request) (routes m) =
       Ret None ->
     _calls (mock (snd r)) = _calls m ++ [unmatched_call url options request] /\
     call_isUnmatched (unmatched_call url options request) = Some true /\
     (truthy (fallbackResponse m) = true ->
      fst r = Ret (Literal (fallbackResponse m) None)) /\
     (truthy (fallbackResponse m) = false ->
      truthy (fallbackToNetwork (config m)) = true ->
      fst r = native) /\
     (forall f, fst r = Ret (Literal f (Some true)) ->
      truthy (fallbackResponse m) = false /\
      truthy (fallbackToNetwork (config m)) = true)).
Proof.
  intros url options request w m r native. split.
  { subst r.
    destruct (executeRouter_steps url options request w) as (l & L & F & _).
    rewrite L, invocations_app.
    replace (invocations l) with (@nil (string * call_args));
      [apply app_nil_r|].
    clear L. induction F as [|e l He _ IH]; [reflexivity|].
    destruct e; cbn in *; try discriminate; exact IH. }
  split.
  - intros A. subst r native m.
    destruct (executeRouter_always url options request w A) as [E1 E2].
    split; [exact E1|]. split; [exact E2|].
    intros rs.
    destruct (executeRouter_always url options request
                {| mock := with_routes rs (mock w); log := log w |} A)
      as [E3 _].
    rewrite E3, E1.
    rewrite (getNativeFetch_run {| mock := with_routes rs (mock w); log := log w |}
               w eq_refl eq_refl eq_refl).
    reflexivity.
  - intros A H. subst r native m.
    rewrite (executeRouter_unmatched url options request w A H).
    destruct (truthy (fallbackResponse (mock w)));
      [|destruct (truthy (fallbackToNetwork (config (mock w))))]; cbn;
      (split; [reflexivity|]); (split; [reflexivity|]);
      (split; [intros; congruence || reflexivity|]);
      (split; [intros; congruence || reflexivity|]);
      intros f E; try discriminate; auto.
Qed.

Lemma executeRouter_decision_order_witness :
  fst (executeRouter "/users" None None
         (Sample.passthrough [Sample.users Sample.ok])) =
    Ret (Literal Sample.echo (Some true)) /\
  fst (executeRouter "/other" None None
         (Sample.with_fallback [Sample.users Sample.ok])) =
    Ret (Literal (VString "fallback") None).
Proof.
  split.
  - destruct (executeRouter_decision_order "/users" None None
                (Sample.passthrough [Sample.users Sample.ok])) as (_ & H & _).
    exact (proj1 (H eq_refl)).
  - destruct (executeRouter_decision_order "/other" None None
                (Sample.with_fallback [Sample.users Sample.ok])) as (_ & _ & H).
    destruct (H eq_refl eq_refl) as (_ & _ & F & _).
    exact (F eq_refl).
Defined.

Lemma executeRouter_calls url options request w :
  strict_eq_string (fallbackToNetwork (config (mock w))) "always" = false ->
  _calls (mock (snd (executeRouter url options request w))) =
    _calls (mock w) ++ call_records (routes (mock w)) url options request.
Proof.
  intros A. unfold call_records.
  destruct (array_find _ (routes (mock w))) as [[route|]|e] eqn:F.
  - now rewrite (executeRouter_matched _ _ _ _ _ A F).
  - rewrite (executeRouter_unmatched _ _ _ _ A F).
    destruct (truthy (fallbackResponse (mock w)));
      [|destruct (negb (truthy (fallbackToNetwork (config (mock w)))))];
      reflexivity.
  - rewrite (executeRouter_matcher_throws _ _ _ _ _ A F). cbn.
    now rewrite app_nil_r.
Qed.

Lemma call_records_length rs url options request :
  length (call_records rs url options request) <= 1.
Proof.
  unfold call_records. destruct (array_find _ rs) as [[route|]|e]; cbn; lia.
Qed.

(** The decision of [executeRouter] depends on the mock, not on the log. *)
Lemma executeRouter_log url options request w w' :
  mock w = mock w' ->
  fst (executeRouter url options request w) =
  fst (executeRouter url options request w').
Proof.
  intros E.
  destruct (strict_eq_string (fallbackToNetwork (config (mock w))) "always")
    eqn:A.
  - destruct (executeRouter_always url options request w A) as [E1 _].
    rewrite E in A.
    destruct (executeRouter_always url options request w' A) as [E2 _].
    rewrite E1, E2.
    rewrite (getNativeFetch_run w w') by now rewrite E.
    reflexivity.
  - destruct (array_find (fun r => matcher r url options request)
                (routes (mock w))) as [[route|]|e] eqn:F.
    + rewrite (executeRouter_matched _ _ _ _ _ A F).
      rewrite E in A, F.
      now rewrite (executeRouter_matched _ _ _ _ _ A F).
    + rewrite (executeRouter_unmatched _ _ _ _ A F).
      pose proof A as A'. pose proof F as F'.
      rewrite E in A', F'.
      rewrite (executeRouter_unmatched _ _ _ _ A' F').
      rewrite (getNativeFetch_run w w') by now rewrite E.
      rewrite E.
      destruct (truthy (fallbackResponse (mock w')));
        [|destruct (negb (truthy (fallbackToNetwork (config (mock w')))))];
        reflexivity.
    + rewrite (executeRouter_matcher_throws _ _ _ _ _ A F).
      rewrite E in A, F.
      now rewrite (executeRouter_matcher_throws _ _ _ _ _ A F).
Qed.

(** ** The first event of the routing step and of response generation *)

Lemma steps_extends P R {X} (c : World -> X * World) :
  steps P R c -> extends c.
Proof.
  intros H w. destruct (H w) as (l & L & _). exists l.
  split; [exact L|]. split; [|exact I].
  clear L. induction l; constructor; auto.
Qed.

Lemma starts_tell_bind {B} e (k : unit -> M B) :
  (forall a, extends (k a)) -> starts_with e (bind (tell e) k).
Proof.
  intros H w. unfold bind, tell.
  destruct (H tt (emit e w)) as (l & L & _).
  exists l. rewrite L. cbn. now rewrite <- app_assoc.
Qed.

Lemma starts_bind {A B} e (c : M A) (k : A -> M B) :
  starts_with e c -> (forall a, extends (k a)) -> starts_with e (bind c k).
Proof.
  intros Hc Hk w. unfold bind. destruct (Hc w) as (l & L).
  destruct (c w) as [[a|e'] w1]; cbn in *.
  - destruct (Hk a w1) as (l' & L' & _). exists (l ++ l').
    rewrite L', L, <- app_assoc. reflexivity.
  - exists l. exact L.
Qed.

Lemma starts_async e (body : M (promise_state value)) :
  starts_with e body -> starts_with e (async body).
Proof.
  intros H w. unfold async. destruct (H w) as (l & L).
  destruct (body w) as [[p|e'] w1]; exists l; exact L.
Qed.

Lemma starts_start e (a : Async) : starts_with e a -> starts_with e (start a).
Proof.
  intros H w. unfold start. destruct (H w) as (l & L).
  destruct (a w) as [p w1]. exists l. exact L.
Qed.

Lemma resolve_starts route url options request :
  starts_with (Debug "Recursively resolving function and promise responses")
    (resolve route url options request).
Proof.
  unfold resolve. apply starts_async. unfold debug.
  apply starts_tell_bind. intros _.
  pose proof (fun f r u o q v =>
                steps_extends _ _ _ (resolve_loop_steps f r u o q v)) as L.
  unfold extends in *. steps_go.
Qed.

Lemma generateResponse_starts responseBuilder route url options request :
  starts_with (Debug "Recursively resolving function and promise responses")
    (generateResponse responseBuilder route url options request).
Proof.
  unfold generateResponse, await_call. apply starts_async.
  apply starts_bind.
  - apply starts_start, resolve_starts.
  - intros p. unfold extends. steps_go.
Qed.

Lemma executeRouter_starts url options request :
  starts_with (Debug "Attempting to match request to defined routes")
    (executeRouter url options request).
Proof.
  unfold executeRouter, debug at 1. apply starts_tell_bind. intros _.
  pose proof (fun u o q => steps_extends _ _ _ (router_steps u o q)) as L.
  assert (N : extends getNativeFetch)
    by (apply getNativeFetch_steps; steps_side).
  unfold extends in *. steps_go.
Qed.

Arguments generateResponse : simpl never.

Lemma falsy_not_always (v : value) :
  truthy v = false -> strict_eq_string v "always" = false.
Proof.
  destruct v; cbn; try reflexivity.
  destruct s; [reflexivity | discriminate].
Qed.

Lemma same_but_calls_fields m m' :
  same_but_calls m m' ->
  config m = config m' /\ routes m = routes m' /\
  fallbackResponse m = fallbackResponse m' /\
  _holdingPromises m = _holdingPromises m'.
Proof.
  unfold same_but_calls. intros H.
  repeat split;
    [ apply (f_equal config) in H | apply (f_equal routes) in H
    | apply (f_equal fallbackResponse) in H
    | apply (f_equal _holdingPromises) in H ]; exact H.
Qed.

Lemma same_but_holdingPromises_fields m m' :
  same_but_holdingPromises m m' ->
  config m = config m' /\ routes m = routes m' /\
  fallbackResponse m = fallbackResponse m' /\ _calls m = _calls m'.
Proof.
  unfold same_but_holdingPromises. intros H.
  repeat split;
    [ apply (f_equal config) in H | apply (f_equal routes) in H
    | apply (f_equal fallbackResponse) in H
    | apply (f_equal _calls) in H ]; exact H.
Qed.

(** ** [fetchHandler] *)

Section HandlerFacts.

Variable normalizeRequest :
  string + Request -> option Options -> result value NormalizedRequest.
Variable responseBuilder :
  string -> value -> FetchMock -> MatchResult -> result value value.

Lemma fetchHandler_not_normalized url options w e :
  normalizeRequest url options = Throw e ->
  fetchHandler normalizeRequest responseBuilder url options w = (Throw e, entered w).
Proof. intros N. unfold fetchHandler. unfold_m. now rewrite N. Qed.

Lemma fetchHandler_routed url options w n route w1 :
  normalizeRequest url options = Ret n ->
  executeRouter (nr_url n) (nr_options n) (nr_request n) (entered w) =
    (Ret route, w1) ->
  fetchHandler normalizeRequest responseBuilder url options w =
    executor responseBuilder route (nr_url n) (nr_options n) (nr_request n)
      (length (_holdingPromises (mock w1))) (snd (holdingPush w1)).
Proof.
  intros N E. unfold fetchHandler.
  unfold bind at 1. unfold debug at 1, tell at 1.
  unfold bind at 1. unfold lift at 1. rewrite N.
  unfold bind at 1. fold (entered w). rewrite E.
  unfold bind at 1. reflexivity.
Qed.

Lemma fetchHandler_not_routed url options w n e w1 :
  normalizeRequest url options = Ret n ->
  executeRouter (nr_url n) (nr_options n) (nr_request n) (entered w) =
    (Throw e, w1) ->
  fetchHandler normalizeRequest responseBuilder url options w = (Throw e, w1).
Proof.
  intros N E. unfold fetchHandler.
  unfold bind at 1. unfold debug at 1, tell at 1.
  unfold bind at 1. unfold lift at 1. rewrite N.
  unfold bind at 1. fold (entered w). rewrite E.
  reflexivity.
Qed.

(** C4: when no route matches, fallback to the network is off and there is
    no fallback response, the entry point throws synchronously: no promise
    is returned, no holding promise is registered and nothing of response
    generation has run.  The error message names the method, "GET" when the
    options give none, and the URL. *)
Theorem unmatched_without_fallback_throws :
  forall url options n w,
    normalizeRequest url options = Ret n ->
    array_find
      (fun route => matcher route (nr_url n) (nr_options n) (nr_request n))
      (routes (mock w)) = Ret None ->
    truthy (fallbackToNetwork (config (mock w))) = false ->
    truthy (fallbackResponse (mock w)) = false ->
    let r := fetchHandler normalizeRequest responseBuilder url options w in
    fst r = Throw (Error ("fetch-mock: No fallback response defined for " ++
                          method_or_GET (nr_options n) ++ " to " ++
                          nr_url n)%string) /\
    _holdingPromises (mock (snd r)) = _holdingPromises (mock w) /\
    (exists l, log (snd r) = log w ++ l /\
               Forall (fun e => routing_phase e = true) l) /\
    ((forall o, nr_options n = Some o -> method o = None) ->
     method_or_GET (nr_options n) = "GET") /\
    (forall o m, nr_options n = Some o -> method o = Some m -> m <> "" ->
     method_or_GET (nr_options n) = m).
Proof.
  intros url options n w N F T1 T2 r.
  pose proof (falsy_not_always _ T1) as A.
  pose proof (executeRouter_unmatched (nr_url n) (nr_options n) (nr_request n)
                (entered w) A F) as E.
  cbv zeta in E. unfold entered in E. rewrite ?mock_emit in E.
  rewrite T2, T1 in E. cbn [negb] in E.
  subst r. rewrite (fetchHandler_not_routed _ _ _ _ _ _ N E).
  split; [reflexivity|]. split; [reflexivity|]. split.
  - unfold unmatched_world, entered, emit. cbn [log mock].
    eexists. rewrite <- app_assoc. split; [reflexivity|].
    destruct (warnOnFallback (config (mock w))); repeat constructor.
  - split.
    + intros H. unfold method_or_GET.
      destruct (nr_options n) as [o|]; [|reflexivity].
      now rewrite (H o eq_refl).
    + intros o m Ho Hm Hne. unfold method_or_GET. rewrite Ho, Hm.
      destruct (String.eqb_spec m ""); congruence.
Qed.

Lemma fetchHandler_calls url options w n :
  normalizeRequest url options = Ret n ->
  strict_eq_string (fallbackToNetwork (config (mock w))) "always" = false ->
  let w' := snd (fetchHandler normalizeRequest responseBuilder url options w) in
  _calls (mock w') =
    _calls (mock w) ++
    call_records (routes (mock w)) (nr_url n) (nr_options n) (nr_request n) /\
  config (mock w') = config (mock w) /\
  routes (mock w') = routes (mock w).
Proof.
  intros N A w'. subst w'.
  pose proof (executeRouter_calls (nr_url n) (nr_options n) (nr_request n)
                (entered w) A) as C.
  destruct (executeRouter_steps (nr_url n) (nr_options n) (nr_request n)
              (entered w)) as (l & _ & _ & S).
  apply same_but_calls_fields in S. destruct S as (S1 & S2 & _).
  destruct (executeRouter (nr_url n) (nr_options n) (nr_request n) (entered w))
    as [[route|e] w1] eqn:E; cbn [snd] in *.
  - rewrite (fetchHandler_routed _ _ _ _ _ _ N E).
    destruct (executor_steps same_but_holdingPromises responseBuilder route
                (nr_url n) (nr_options n) (nr_request n)
                (length (_holdingPromises (mock w1)))
                ltac:(steps_side) ltac:(steps_side) ltac:(steps_side)
                (snd (holdingPush w1))) as (l' & _ & _ & S').
    apply same_but_holdingPromises_fields in S'.
    destruct S' as (S3 & S4 & _ & S5).
    rewrite <- S5, <- S3, <- S4. cbn. rewrite C. auto.
  - rewrite (fetchHandler_not_routed _ _ _ _ _ _ N E). cbn. rewrite C. auto.
Qed.

Lemma fetchAll_calls calls :
  forall w,
    strict_eq_string (fallbackToNetwork (config (mock w))) "always" = false ->
    let w' := fetchAll normalizeRequest responseBuilder calls w in
    _calls (mock w') =
      _calls (mock w) ++
      flat_map (recorded normalizeRequest (routes (mock w))) calls /\
    config (mock w') = config (mock w) /\
    routes (mock w') = routes (mock w).
Proof.
  induction calls as [|[url options] calls IH]; intros w A; cbn zeta.
  - cbn. rewrite app_nil_r. auto.
  - cbn [fetchAll flat_map]. unfold recorded at 1. cbn [fst snd].
    destruct (normalizeRequest url options) as [n|e] eqn:N.
    + destruct (fetchHandler_calls url options w n N A) as (C1 & C2 & C3).
      destruct (IH (snd (fetchHandler normalizeRequest responseBuilder
                           url options w))) as (I1 & I2 & I3).
      { now rewrite C2. }
      rewrite I1, I2, I3, C1, C2, C3, <- app_assoc. auto.
    + rewrite (fetchHandler_not_normalized _ _ _ _ N).
      destruct (IH (entered w) A) as (I1 & I2 & I3).
      cbn [snd]. rewrite I1, I2, I3. auto.
Qed.

Lemma executor_generates route url options request done_ w :
  exists l,
    log (snd (executor responseBuilder route url options request done_ w)) =
      log w ++ l /\
    In (Debug "Recursively resolving function and promise responses") l.
Proof.
  unfold executor.
  destruct options as [[m [[[|]]|]]|];
    unfold_m; unfold abort, rej, res, done; unfold_m; run_m;
    match goal with |- context [generateResponse ?a ?b ?c ?d ?e ?f] =>
      destruct (generateResponse_starts a b c d e f) as (l & L);
      destruct (generateResponse a b c d e f) as [[v|e'|] w2]
    end;
    run_m; cbn [snd log] in L; rewrite L; rewrite <- ?app_assoc;
    (eexists; split; [reflexivity|]);
    cbn; auto 10 using in_or_app, in_eq.
Qed.

(** C2, as the code has it: on a mock whose [fallbackToNetwork] is not
    ['always'], every call of the entry point that gets through
    normalization, and in which no matcher throws while the routes are
    scanned, appends exactly one record to [_calls], whether a route matched
    or not and whether the call then returned a promise or threw; a call
    stopped by normalization or by a matcher appends none; over a series of
    calls the records are in the order of the calls. *)
Theorem every_call_is_recorded_once :
  forall calls w,
    strict_eq_string (fallbackToNetwork (config (mock w))) "always" = false ->
    let w' := fetchAll normalizeRequest responseBuilder calls w in
    _calls (mock w') =
      _calls (mock w) ++
      flat_map (recorded normalizeRequest (routes (mock w))) calls /\
    (Forall (fun c => exists n found,
               normalizeRequest (fst c) (snd c) = Ret n /\
               array_find
                 (fun route =>
                    matcher route (nr_url n) (nr_options n) (nr_request n))
                 (routes (mock w)) = Ret found)
       calls ->
     length (_calls (mock w')) = length (_calls (mock w)) + length calls).
Proof.
  intros calls w A w'.
  destruct (fetchAll_calls calls w A) as (C & _).
  split; [exact C|].
  intros H. subst w'. rewrite C, length_app. f_equal.
  clear C. induction H as [|c calls (n & found & N & F) _ IH]; [reflexivity|].
  cbn [flat_map]. rewrite length_app, IH. unfold recorded, call_records.
  rewrite N, F. now destruct found.
Qed.

Lemma executor_aborted route url options request done_ o sig w :
  options = Some o -> signal o = Some sig -> aborted sig = true ->
  fst (executor responseBuilder route url options request done_ w) =
    Ret (Rejected AbortError).
Proof.
  intros -> S B. unfold executor. destruct o as [m s]. cbn in S. subst s.
  rewrite B. unfold_m. unfold abort, rej, res, done. unfold_m.
  run_m.
  match goal with |- context [generateResponse ?a ?b ?c ?d ?e ?f] =>
    destruct (generateResponse a b c d e f) as [[v|e'|] w2] end; reflexivity.
Qed.

(** C3, as the code has it: when the options carry a signal that is already
    aborted and the routing step returns a match result, the promise the
    entry point returns is rejected with an AbortError, whatever response
    generation comes to. *)
Theorem aborted_signal_rejects :
  forall url options n o sig route w,
    normalizeRequest url options = Ret n ->
    nr_options n = Some o -> signal o = Some sig -> aborted sig = true ->
    fst (executeRouter (nr_url n) (nr_options n) (nr_request n) w) =
      Ret route ->
    fst (fetchHandler normalizeRequest responseBuilder url options w) =
      Ret (Rejected AbortError) /\
    error_name AbortError = Some "AbortError".
Proof.
  intros url options n o sig route w N O S B E.
  rewrite (executeRouter_log _ _ _ w (entered w) eq_refl) in E.
  destruct (executeRouter (nr_url n) (nr_options n) (nr_request n) (entered w))
    as [r w1] eqn:E'. cbn in E. subst r.
  rewrite (fetchHandler_routed _ _ _ _ _ _ N E').
  split; [|reflexivity].
  now apply (executor_aborted route (nr_url n) (nr_options n) (nr_request n)
               _ o sig).
Qed.

(** C9, as the code has it: the holding promise is registered after the
    routing step has returned a match result and before anything of the
    executor or of response generation runs; when the routing step throws,
    no holding promise is registered at all. *)
Theorem holding_promise_after_routing :
  forall url options n w,
    normalizeRequest url options = Ret n ->
    let routed :=
      fst (executeRouter (nr_url n) (nr_options n) (nr_request n) w) in
    let r := fetchHandler normalizeRequest responseBuilder url options w in
    (forall route, routed = Ret route ->
       exists pre post,
         log (snd r) = log w ++ pre ++ HoldingPush :: post /\
         Forall (fun e => routing_phase e = true) pre /\
         In (Debug "Attempting to match request to defined routes") pre /\
         Forall (fun e => generation_phase e = true) post /\
         In (Debug "Recursively resolving function and promise responses")
           post /\
         length (_holdingPromises (mock (snd r))) =
           S (length (_holdingPromises (mock w)))) /\
    (forall e, routed = Throw e ->
       fst r = Throw e /\
       _holdingPromises (mock (snd r)) = _holdingPromises (mock w) /\
       exists l, log (snd r) = log w ++ l /\
                 Forall (fun e => routing_phase e = true) l).
Proof.
  intros url options n w N routed r. subst routed r.
  rewrite (executeRouter_log _ _ _ w (entered w) eq_refl).
  destruct (executeRouter_steps (nr_url n) (nr_options n) (nr_request n)
              (entered w)) as (l1 & L1 & F1 & S1).
  destruct (executeRouter_starts (nr_url n) (nr_options n) (nr_request n)
              (entered w)) as (l1' & L1').
  apply same_but_calls_fields in S1. destruct S1 as (_ & _ & _ & S1).
  destruct (executeRouter (nr_url n) (nr_options n) (nr_request n) (entered w))
    as [[route|e] w1] eqn:E; cbn [fst snd] in *.
  - split; [|discriminate]. intros route' [= <-].
    rewrite (fetchHandler_routed _ _ _ _ _ _ N E).
    set (w2 := snd (holdingPush w1)).
    destruct (executor_steps
                (fun m m' => length (_holdingPromises m) =
                             length (_holdingPromises m'))
                responseBuilder route (nr_url n) (nr_options n) (nr_request n)
                (length (_holdingPromises (mock w1)))
                ltac:(reflexivity) ltac:(intros; congruence)
                ltac:(intros; cbn; now rewrite resolve_at_length) w2)
      as (l2 & L2 & F2 & S2).
    destruct (executor_generates route (nr_url n) (nr_options n) (nr_request n)
                (length (_holdingPromises (mock w1))) w2) as (l2' & L2' & I2).
    rewrite L2 in L2'. apply app_inv_head in L2'. subst l2'.
    rewrite L1 in L1'. apply app_inv_head in L1'. subst l1.
    exists (Debug "**HANDLING NEW FETCH**" ::
            Debug "Attempting to match request to defined routes" :: l1'), l2.
    split.
    { rewrite L2. subst w2. cbn [holdingPush snd log emit mock].
      rewrite L1. unfold entered, emit. cbn [log].
      rewrite <- !app_assoc. reflexivity. }
    split; [constructor; [reflexivity | exact F1]|].
    split; [right; left; reflexivity|].
    split; [exact F2|]. split; [exact I2|].
    rewrite <- S2. subst w2. cbn. rewrite length_app, <- S1. cbn. lia.
  - split; [discriminate|]. intros e' [= <-].
    rewrite (fetchHandler_not_routed _ _ _ _ _ _ N E).
    split; [reflexivity|]. split; [cbn [snd]; now rewrite <- S1|].
    exists (Debug "**HANDLING NEW FETCH**" :: l1).
    split; [|constructor; [reflexivity | exact F1]].
    cbn [snd]. rewrite L1. unfold entered, emit. cbn [log].
    rewrite <- app_assoc. reflexivity.
Qed.

End HandlerFacts.

Lemma unmatched_without_fallback_throws_witness :
  fst (fetchHandler Sample.normalize Sample.build (inl "/other") None
         (Sample.world [Sample.users Sample.ok])) =
  Throw (Error "fetch-mock: No fallback response defined for GET to /other").
Proof.
  exact (proj1 (unmatched_without_fallback_throws Sample.normalize Sample.build
                  (inl "/other") None _ (Sample.world [Sample.users Sample.ok])
                  eq_refl eq_refl eq_refl eq_refl)).
Defined.

(** ** The value [resolve] settles with, and [generateResponse] *)

Lemma await_idem (v v' : value) :
  await v = Fulfilled v' -> await v' = Fulfilled v'.
Proof.
  revert v v'.
  fix IH 1.
  intros v v' H.
  destruct v; simpl in H; try (inversion H; subst; reflexivity).
  destruct state as [u | e | ]; try discriminate.
  exact (IH u v' H).
Qed.

Lemma resolve_loop_result fuel rif url options request response w x :
  fst (resolve_loop fuel rif url options request response w) =
    Ret (Some (Fulfilled x)) ->
  await x = Fulfilled x.
Proof.
  revert response w.
  induction fuel as [|fuel IH]; intros response w; cbn [resolve_loop].
  - discriminate.
  - destruct (is_function response).
    + unfold_m. destruct rif; [destruct request|]; cbn;
        match goal with |- context [call ?f ?a] => destruct (call f a) end;
        cbn; intros [= H]; eauto using await_idem.
    + unfold_m.
      destruct (then_is_function response) as [[|]|e]; cbn;
        try discriminate.
      * destruct (await response) as [v| |] eqn:E; cbn; try discriminate.
        apply IH.
      * intros [= H]. eauto using await_idem.
Qed.

Lemma resolve_result route url options request w x :
  fst (resolve route url options request w) = Fulfilled x ->
  await x = Fulfilled x.
Proof.
  unfold resolve, async. unfold bind at 1. unfold debug at 1, tell at 1.
  unfold bind at 1.
  match goal with |- context [resolve_loop ?f ?r ?u ?o ?q ?v ?w0] =>
    pose proof (resolve_loop_result f r u o q v w0 x) as L;
    destruct (resolve_loop f r u o q v w0) as [[[s|]|e] w1]
  end; cbn in *; try discriminate.
  intros ->. auto.
Qed.

Section GenerateResponse.

Variable responseBuilder :
  string -> value -> FetchMock -> MatchResult -> result value value.

(** [generateResponse] once [resolve] has settled with [response]. *)
Lemma generateResponse_terminal route url options request w response :
  fst (resolve route url options request w) = Fulfilled response ->
  let w1 := snd (resolve route url options request w) in
  generateResponse responseBuilder route url options request w =
    match get_throws response with
    | Throw e => (Rejected e, w1)
    | Ret throws =>
        if truthy throws && negb (is_function response) then
          (Rejected throws,
           emit (Debug "response.throws is defined - throwing an error") w1)
        else if isPrototypeOf_Response response then
          (Fulfilled response,
           emit (Debug "response is already a Response instance - returning it")
             w1)
        else
          (async_completion (responseBuilder url response (mock w) route),
           emit (Build url response) w1)
    end.
Proof.
  intros H w1. subst w1.
  pose proof (resolve_result _ _ _ _ _ _ H) as S.
  destruct (resolve_frame route url options request w) as [M _].
  unfold generateResponse, await_call, start, async. unfold bind at 1.
  destruct (resolve route url options request w) as [p w1].
  cbn [fst snd] in *. subst p. unfold await_then. cbn [await]. rewrite S.
  unfold_m. destruct (get_throws response) as [throws|e]; [|reflexivity].
  destruct (truthy throws && negb (is_function response)); [reflexivity|].
  destruct (isPrototypeOf_Response response).
  - now rewrite S.
  - run_m. rewrite M.
    destruct (responseBuilder url response (mock w) route); reflexivity.
Qed.

(** [generateResponse] when [resolve] rejects. *)
Lemma generateResponse_rejected route url options request w e :
  fst (resolve route url options request w) = Rejected e ->
  generateResponse responseBuilder route url options request w =
    (Rejected e, snd (resolve route url options request w)).
Proof.
  intros H.
  unfold generateResponse, await_call, start, async. unfold bind at 1.
  destruct (resolve route url options request w) as [p w1].
  cbn [fst snd] in *. subst p. reflexivity.
Qed.

(** C8: a terminal value that has a truthy [throws] and is not callable
    makes [generateResponse] reject with exactly that [throws] value,
    nothing being built; a callable terminal value is never an error marker,
    whatever its [throws] property: it goes to the Response Builder. *)
Theorem throws_marker_is_thrown :
  forall route url options request w response,
    fst (resolve route url options request w) = Fulfilled response ->
    let g := generateResponse responseBuilder route url options request w in
    (forall throws,
       get_throws response = Ret throws -> truthy throws = true ->
       is_function response = false ->
       fst g = Rejected throws /\
       builds (log (snd g)) = builds (log w)) /\
    (is_function response = true ->
       fst g = async_completion (responseBuilder url response (mock w) route) /\
       builds (log (snd g)) = builds (log w) ++ [(url, response)]).
Proof.
  intros route url options request w response H g. subst g.
  rewrite (generateResponse_terminal _ _ _ _ _ _ H).
  destruct (resolve_frame route url options request w) as [_ B].
  split.
  - intros throws T Tt F. rewrite T, Tt, F. cbn.
    split; [reflexivity|]. rewrite builds_app, B. cbn. apply app_nil_r.
  - intros F. destruct response; try discriminate. cbn.
    rewrite andb_false_r. cbn.
    split; [reflexivity|]. now rewrite builds_app, B.
Qed.

(** C10: the pipeline fails on an absent value.  When the response
    descriptor is [null] or [undefined], or a promise chain that settles
    with one of them, [resolve] rejects with the TypeError of reading [then],
    and so does [generateResponse]; when a callable response returns such a
    value, [resolve] settles with it and [generateResponse] rejects with the
    TypeError of reading [throws].  In neither case is the value handed to
    the Response Builder. *)
Theorem nullish_response_raises_TypeError :
  forall route url options request w n,
    nullish n ->
    let g := generateResponse responseBuilder route url options request w in
    (await (mr_response route) = Fulfilled n ->
       fst (resolve route url options request w) =
         Rejected (TypeError "then" n) /\
       fst g = Rejected (TypeError "then" n) /\
       is_TypeError (TypeError "then" n) /\
       builds (log (snd g)) = builds (log w)) /\
    (forall name throws body args,
       mr_response route = VFunction name throws body ->
       args = (if mr_responseIsFetch route
               then match request with
                    | Some rq => Args1 rq
                    | None => Args2 url options
                    end
               else Args3 url options request) ->
       async_completion (body args) = Fulfilled n ->
       fst (resolve route url options request w) = Fulfilled n /\
       fst g = Rejected (TypeError "throws" n) /\
       is_TypeError (TypeError "throws" n) /\
       builds (log (snd g)) = builds (log w)).
Proof.
  intros route url options request w n N g. subst g.
  destruct (resolve_frame route url options request w) as [_ B].
  split.
  - intros A.
    assert (R : fst (resolve route url options request w) =
                Rejected (TypeError "then" n)).
    { unfold resolve, resolve_fuel. cbn [resolve_loop].
      destruct (mr_response route) as [ | | | | | | | |st];
        destruct N as [-> | ->]; cbn in A; try discriminate;
        try reflexivity;
        destruct st as [v| |]; try discriminate;
        unfold_m; cbn; rewrite A; reflexivity. }
    rewrite (generateResponse_rejected _ _ _ _ _ _ R).
    repeat split; [exact R | exact B].
  - intros name throws body args F -> A.
    destruct (resolve_callable route url options request w name throws body)
      as (R & _); [now rewrite F|].
    cbv zeta in R. rewrite A in R.
    rewrite (generateResponse_terminal _ _ _ _ _ _ R).
    destruct N as [-> | ->]; cbn; repeat split; auto.
Qed.

End GenerateResponse.

(** ** Instances *)

Lemma throws_marker_is_thrown_witness :
  fst (generateResponse Sample.build (RouteObject (Sample.users Sample.marker))
         "/users" None None (Sample.world [])) = Rejected Sample.boom /\
  fst (generateResponse Sample.build (RouteObject (Sample.users Sample.make_spy))
         "/users" None None (Sample.world [])) =
    Fulfilled (VObject VUndefined true "/users").
Proof.
  split.
  - destruct (throws_marker_is_thrown Sample.build
                (RouteObject (Sample.users Sample.marker)) "/users" None None
                (Sample.world []) Sample.marker eq_refl) as [H _].
    exact (proj1 (H Sample.boom eq_refl eq_refl eq_refl)).
  - destruct (throws_marker_is_thrown Sample.build
                (RouteObject (Sample.users Sample.make_spy)) "/users" None None
                (Sample.world []) Sample.spy eq_refl) as [_ H].
    exact (proj1 (H eq_refl)).
Defined.

Lemma nullish_response_raises_TypeError_witness :
  fst (generateResponse Sample.build
         (RouteObject (Sample.users Sample.promised_null))
         "/users" None None (Sample.world [])) =
    Rejected (VError "TypeError" "Cannot read property 'then' of null") /\
  fst (generateResponse Sample.build (RouteObject (Sample.users Sample.noop))
         "/users" None None (Sample.world [])) =
    Rejected (VError "TypeError" "Cannot read property 'throws' of undefined").
Proof.
  split.
  - destruct (nullish_response_raises_TypeError Sample.build
                (RouteObject (Sample.users Sample.promised_null))
                "/users" None None (Sample.world []) VNull
                (or_intror eq_refl)) as [H _].
    destruct (H eq_refl) as (_ & G & _). exact G.
  - destruct (nullish_response_raises_TypeError Sample.build
                (RouteObject (Sample.users Sample.noop))
                "/users" None None (Sample.world []) VUndefined
                (or_introl eq_refl)) as [_ H].
    destruct (H _ _ _ _ eq_refl eq_refl eq_refl) as (_ & G & _). exact G.
Defined.

Lemma every_call_is_recorded_once_witness :
  let calls := [(inl "/users", None); (inl "/other", None);
                (inr Sample.post, None)] in
  let w := Sample.with_fallback [Sample.users Sample.ok] in
  _calls (mock (fetchAll Sample.normalize Sample.build calls w)) =
    [matched_call "/users" None None (Sample.users Sample.ok);
     unmatched_call "/other" None None;
     matched_call "/users" (Some {| method := Some "POST"; signal := None |})
       (Some Sample.post) (Sample.users Sample.ok)] /\
  length (_calls (mock (fetchAll Sample.normalize Sample.build calls w))) = 3.
Proof.
  cbv zeta.
  destruct (every_call_is_recorded_once Sample.normalize Sample.build
              [(inl "/users", None); (inl "/other", None);
               (inr Sample.post, None)]
              (Sample.with_fallback [Sample.users Sample.ok]) eq_refl)
    as [H1 H2].
  split; [exact H1|].
  apply H2.
  repeat (constructor; [do 2 eexists; split; reflexivity|]).
  constructor.
Defined.

(** C2 as stated fails: with [fallbackToNetwork: 'always'] a call succeeds
    and leaves no record. *)
Lemma passthrough_call_is_not_recorded :
  let w := Sample.passthrough [Sample.users Sample.ok] in
  let r := fetchHandler Sample.normalize Sample.build (inl "/users") None w in
  fst r = Ret (Fulfilled (VObject VUndefined true "/users")) /\
  _calls (mock (snd r)) = _calls (mock w) /\
  length (_calls (mock (snd r))) <> S (length (_calls (mock w))).
Proof. cbv zeta. split; [reflexivity|]. split; [reflexivity|discriminate]. Qed.

Lemma aborted_signal_rejects_witness :
  fst (fetchHandler Sample.normalize Sample.build (inl "/users")
         Sample.aborted_options (Sample.world [Sample.users Sample.echo])) =
  Ret (Rejected AbortError).
Proof.
  exact (proj1 (aborted_signal_rejects Sample.normalize Sample.build
                  (inl "/users") Sample.aborted_options _ _ _ _
                  (Sample.world [Sample.users Sample.echo])
                  eq_refl eq_refl eq_refl eq_refl eq_refl)).
Defined.

(** C3 as stated fails: with a signal that is already aborted the promise is
    rejected with the AbortError, and yet response generation runs: [resolve]
    is entered, the responder is called and its result is built. *)
Lemma aborted_call_still_generates :
  let w := Sample.world [Sample.users Sample.echo] in
  let r := fetchHandler Sample.normalize Sample.build (inl "/users")
             Sample.aborted_options w in
  fst r = Ret (Rejected AbortError) /\
  In (Debug "Recursively resolving function and promise responses")
    (log (snd r)) /\
  invocations (log (snd r)) =
    [("echo", Args3 "/users" Sample.aborted_options None)] /\
  builds (log (snd r)) = [("/users", VString "url, options, request")].
Proof.
  cbv zeta. split; [reflexivity|]. split; [|split; reflexivity].
  vm_compute. do 10 right. left. reflexivity.
Qed.

Lemma holding_promise_after_routing_witness :
  let r := fetchHandler Sample.normalize Sample.build (inl "/users") None
             (Sample.world [Sample.users Sample.ok]) in
  exists pre post,
    log (snd r) = pre ++ HoldingPush :: post /\
    In (Debug "Attempting to match request to defined routes") pre /\
    In (Debug "Recursively resolving function and promise responses") post /\
    length (_holdingPromises (mock (snd r))) = 1.
Proof.
  cbv zeta.
  destruct (holding_promise_after_routing Sample.normalize Sample.build
              (inl "/users") None _ (Sample.world [Sample.users Sample.ok])
              eq_refl) as [H _].
  destruct (H _ eq_refl) as (pre & post & L & _ & I1 & _ & I2 & N).
  exists pre, post. auto.
Defined.

(** C9 as stated fails: the router is asked (position 1 of the log) before
    the holding promise is registered (position 4); and when the routing
    step throws, no holding promise is registered. *)
Lemma holding_promise_not_before_routing :
  let l := log (snd (fetchHandler Sample.normalize Sample.build (inl "/users")
                       None (Sample.world [Sample.users Sample.ok]))) in
  let thrown := fetchHandler Sample.normalize Sample.build (inl "/other")
                  None (Sample.world [Sample.users Sample.ok]) in
  index_of routing_event l = Some 1 /\
  index_of is_HoldingPush l = Some 4 /\
  ~ (exists i j, index_of is_HoldingPush l = Some i /\
                 index_of routing_event l = Some j /\ i < j) /\
  _holdingPromises (mock (snd thrown)) = [].
Proof.
  cbv zeta. split; [reflexivity|]. split; [reflexivity|].
  split; [|reflexivity].
  intros (i & j & Hi & Hj & Lt).
  vm_compute in Hi, Hj. injection Hi as <-. injection Hj as <-. lia.
Qed.

(** * Further properties of the handler *)

(** ** What response generation depends on *)

Lemma resolve_loop_world fuel rif url options request response w w' :
  fst (resolve_loop fuel rif url options request response w) =
  fst (resolve_loop fuel rif url options request response w').
Proof.
  revert response w w'.
  induction fuel as [|fuel IH]; intros response w w'; cbn [resolve_loop].
  - reflexivity.
  - destruct (is_function response).
    + unfold_m. destruct rif; [destruct request|]; cbn;
        match goal with |- context [call ?f ?a] => destruct (call f a) end;
        reflexivity.
    + unfold_m.
      destruct (then_is_function response) as [[|]|e]; cbn; try reflexivity.
      destruct (await response) as [v| |]; cbn; try reflexivity.
      apply IH.
Qed.

(** What [resolve] settles with depends on its arguments, not on the
    world. *)
Lemma resolve_world route url options request w w' :
  fst (resolve route url options request w) =
  fst (resolve route url options request w').
Proof.
  unfold resolve, async. unfold bind at 1 3. unfold debug, tell.
  unfold bind.
  match goal with |- context [resolve_loop ?f ?r ?u ?o ?q ?v (emit ?e w)] =>
    pose proof (resolve_loop_world f r u o q v (emit e w) (emit e w')) as L;
    destruct (resolve_loop f r u o q v (emit e w)) as [[[s|]|x] w1];
    destruct (resolve_loop f r u o q v (emit e w')) as [[[s'|]|x'] w1']
  end; cbn in *; congruence.
Qed.

Lemma generateResponse_pending responseBuilder route url options request w :
  fst (resolve route url options request w) = Pending ->
  generateResponse responseBuilder route url options request w =
    (Pending, snd (resolve route url options request w)).
Proof.
  intros H.
  unfold generateResponse, await_call, start, async. unfold bind at 1.
  destruct (resolve route url options request w) as [p w1].
  cbn [fst snd] in *. subst p. reflexivity.
Qed.

(** What [generateResponse] settles with depends on the mock, not on the
    log. *)
Lemma generateResponse_world responseBuilder route url options request w w' :
  mock w = mock w' ->
  fst (generateResponse responseBuilder route url options request w) =
  fst (generateResponse responseBuilder route url options request w').
Proof.
  intros E.
  pose proof (resolve_world route url options request w w') as R.
  destruct (fst (resolve route url options request w)) as [v|e|] eqn:R1;
    symmetry in R.
  - rewrite (generateResponse_terminal _ _ _ _ _ _ _ R1).
    rewrite (generateResponse_terminal _ _ _ _ _ _ _ R).
    rewrite E.
    destruct (get_throws v) as [t|x]; [|reflexivity].
    destruct (truthy t && negb (is_function v)); [reflexivity|].
    destruct (isPrototypeOf_Response v); reflexivity.
  - rewrite (generateResponse_rejected _ _ _ _ _ _ _ R1).
    now rewrite (generateResponse_rejected _ _ _ _ _ _ _ R).
  - rewrite (generateResponse_pending _ _ _ _ _ _ R1).
    now rewrite (generateResponse_pending _ _ _ _ _ _ R).
Qed.

Lemma generateResponse_mock responseBuilder route url options request w :
  mock (snd (generateResponse responseBuilder route url options request w)) =
  mock w.
Proof.
  destruct (generateResponse_steps responseBuilder route url options request w)
    as (l & _ & _ & E).
  now rewrite <- E.
Qed.

(** What [generateResponse] fulfils with is never a thenable. *)
Lemma generateResponse_result responseBuilder route url options request w v :
  fst (generateResponse responseBuilder route url options request w) =
    Fulfilled v ->
  await v = Fulfilled v.
Proof.
  destruct (fst (resolve route url options request w)) as [x|e|] eqn:R.
  - rewrite (generateResponse_terminal _ _ _ _ _ _ _ R).
    pose proof (resolve_result _ _ _ _ _ _ R) as S.
    destruct (get_throws x) as [t|e]; [|discriminate].
    destruct (truthy t && negb (is_function x)); [discriminate|].
    destruct (isPrototypeOf_Response x); cbn.
    + congruence.
    + destruct (responseBuilder url x (mock w) route) as [b|e]; cbn;
        [eauto using await_idem | discriminate].
  - rewrite (generateResponse_rejected _ _ _ _ _ _ _ R). discriminate.
  - rewrite (generateResponse_pending _ _ _ _ _ _ R). discriminate.
Qed.

Lemma resolve_at_last hs h :
  resolve_at (length hs) (hs ++ [h]) =
  hs ++ [match h with Pending => Fulfilled tt | _ => h end].
Proof. induction hs as [|x hs IH]; cbn; [reflexivity | now rewrite IH]. Qed.

Lemma resolve_at_twice i hs :
  resolve_at i (resolve_at i hs) = resolve_at i hs.
Proof.
  revert i. induction hs as [|h hs IH]; intros [|i]; cbn; auto.
  - now destruct h.
  - now rewrite IH.
Qed.

(** The executor, in full: what the caller's promise settles with, and what
    becomes of the holding promises. *)
Lemma executor_outcome responseBuilder route url options request done_ w :
  let r := executor responseBuilder route url options request done_ w in
  let g := fst (generateResponse responseBuilder route url options request w) in
  let hs := _holdingPromises (mock w) in
  (already_aborted options = true ->
   fst r = Ret (Rejected AbortError) /\
   _holdingPromises (mock (snd r)) = resolve_at done_ hs) /\
  (already_aborted options = false ->
   fst r = Ret g /\
   _holdingPromises (mock (snd r)) =
     if settled g then resolve_at done_ hs else hs).
Proof.
  cbv zeta. unfold executor.
  destruct options as [[m [[[|]]|]]|]; cbn [already_aborted aborted];
    (split; [intros A | intros A]; try discriminate);
    unfold_m; unfold abort, rej, res, done; unfold_m; run_m;
    match goal with |- context [generateResponse ?a ?b ?c ?d ?e ?f] =>
      pose proof (generateResponse_mock a b c d e f) as Mk;
      pose proof (generateResponse_result a b c d e f) as Aw;
      try (rewrite <- (generateResponse_world a b c d e f w eq_refl));
      destruct (generateResponse a b c d e f) as [[v|e'|] w2]
    end;
    cbn [fst snd mock] in *; rewrite ?Mk; cbn;
    rewrite ?resolve_at_twice; rewrite ?(Aw _ eq_refl); auto.
Qed.

Lemma no_signal_not_aborted options :
  has_signal options = false -> already_aborted options = false.
Proof. destruct options as [[m [sig|]]|]; cbn; congruence. Qed.

Lemma warnings_app (l1 l2 : list event) :
  warnings (l1 ++ l2) = warnings l1 ++ warnings l2.
Proof.
  induction l1 as [|e l1 IH]; [reflexivity|].
  destruct e; simpl; rewrite ?IH; reflexivity.
Qed.

Lemma routing_events_quiet l :
  Forall (fun e => routing_phase e = true) l ->
  invocations l = [] /\ builds l = [].
Proof.
  induction 1 as [|e l He _ [I B]]; [auto|].
  destruct e; cbn in *; try discriminate; auto.
Qed.

Lemma executor_events_quiet l :
  Forall (fun e => executor_event e = true) l ->
  invocations l = [] /\ builds l = [] /\ warnings l = [].
Proof.
  induction 1 as [|e l He _ (I & B & W)]; [auto|].
  destruct e; cbn in *; try discriminate; auto.
Qed.

(** The mock [executeRouter] leaves depends on the mock, not on the log. *)
Lemma executeRouter_mock url options request w w' :
  mock w = mock w' ->
  mock (snd (executeRouter url options request w)) =
  mock (snd (executeRouter url options request w')).
Proof.
  intros E.
  destruct (strict_eq_string (fallbackToNetwork (config (mock w))) "always")
    eqn:A.
  - destruct (executeRouter_always url options request w A) as [_ E1].
    rewrite E in A.
    destruct (executeRouter_always url options request w' A) as [_ E2].
    congruence.
  - destruct (array_find (fun r => matcher r url options request)
                (routes (mock w))) as [[route|]|e] eqn:F.
    + rewrite (executeRouter_matched _ _ _ _ _ A F).
      rewrite E in A, F.
      rewrite (executeRouter_matched _ _ _ _ _ A F). cbn. now rewrite E.
    + rewrite (executeRouter_unmatched _ _ _ _ A F).
      pose proof A as A'. pose proof F as F'.
      rewrite E in A', F'.
      rewrite (executeRouter_unmatched _ _ _ _ A' F').
      rewrite E.
      destruct (truthy (fallbackResponse (mock w')));
        [|destruct (negb (truthy (fallbackToNetwork (config (mock w')))))];
        cbn; now rewrite E.
    + rewrite (executeRouter_matcher_throws _ _ _ _ _ A F).
      rewrite E in A, F.
      now rewrite (executeRouter_matcher_throws _ _ _ _ _ A F).
Qed.

Section MoreHandlerFacts.

Variable normalizeRequest :
  string + Request -> option Options -> result value NormalizedRequest.
Variable responseBuilder :
  string -> value -> FetchMock -> MatchResult -> result value value.

(** A call that is routed, seen from the world [w] of the call: the executor
    runs with the mock the routing step left, the holding promise added;
    nothing has been called or built by then. *)
Lemma fetchHandler_routed_from url options w n route :
  normalizeRequest url options = Ret n ->
  fst (executeRouter (nr_url n) (nr_options n) (nr_request n) w) = Ret route ->
  exists w1,
    mock w1 = mock (snd (executeRouter (nr_url n) (nr_options n)
                           (nr_request n) w)) /\
    _holdingPromises (mock w1) = _holdingPromises (mock w) /\
    invocations (log w1) = invocations (log w) /\
    builds (log w1) = builds (log w) /\
    fetchHandler normalizeRequest responseBuilder url options w =
      executor responseBuilder route (nr_url n) (nr_options n) (nr_request n)
        (length (_holdingPromises (mock w))) (snd (holdingPush w1)).
Proof.
  intros N E.
  rewrite (executeRouter_log _ _ _ w (entered w) eq_refl) in E.
  pose proof (executeRouter_mock (nr_url n) (nr_options n) (nr_request n)
                (entered w) w eq_refl) as Mk.
  destruct (executeRouter_steps (nr_url n) (nr_options n) (nr_request n)
              (entered w)) as (l & L & F & S).
  apply same_but_calls_fields in S. destruct S as (_ & _ & _ & S).
  destruct (routing_events_quiet _ F) as [I B].
  destruct (executeRouter (nr_url n) (nr_options n) (nr_request n) (entered w))
    as [r w1] eqn:E'. cbn [fst snd] in *. subst r.
  exists w1. split; [exact Mk|]. split; [now rewrite <- S|].
  split; [|split].
  - rewrite L. unfold entered, emit. cbn [log].
    rewrite !invocations_app, I. cbn. now rewrite !app_nil_r.
  - rewrite L. unfold entered, emit. cbn [log].
    rewrite !builds_app, B. cbn. now rewrite !app_nil_r.
  - rewrite (fetchHandler_routed _ _ _ _ _ _ _ _ N E'). now rewrite <- S.
Qed.

(** X3: a call that is routed registers one holding promise, after those
    already there, and leaves it resolved exactly when the promise handed to
    the caller has settled (fulfilled, rejected or aborted); the holding
    promises of earlier calls are untouched. *)
Theorem holding_promise_follows_settlement :
  forall url options n route w,
    normalizeRequest url options = Ret n ->
    fst (executeRouter (nr_url n) (nr_options n) (nr_request n) w) =
      Ret route ->
    let r := fetchHandler normalizeRequest responseBuilder url options w in
    exists p,
      fst r = Ret p /\
      _holdingPromises (mock (snd r)) =
        _holdingPromises (mock w) ++
        [if settled p then Fulfilled tt else Pending].
Proof.
  intros url options n route w N E r. subst r.
  destruct (fetchHandler_routed_from url options w n route N E)
    as (w1 & _ & H & _ & _ & ->).
  assert (Hh : _holdingPromises (mock (snd (holdingPush w1))) =
               _holdingPromises (mock w) ++ [Pending])
    by (cbn; now rewrite H).
  set (w2 := snd (holdingPush w1)) in *.
  destruct (executor_outcome responseBuilder route (nr_url n) (nr_options n)
              (nr_request n) (length (_holdingPromises (mock w))) w2)
    as [A B].
  rewrite Hh, resolve_at_last in A, B.
  destruct (already_aborted (nr_options n)).
  - destruct (A eq_refl) as [A1 A2]. eexists. split; [exact A1|]. exact A2.
  - destruct (B eq_refl) as [B1 B2]. eexists. split; [exact B1|].
    rewrite B2. now destruct (settled _).
Qed.

(** X4: when the normalized options carry no signal, the promise handed to
    the caller settles exactly as [generateResponse] does for the match
    result of the routing step, run on the mock as that step and the
    registration of the holding promise left it. *)
Theorem fetch_follows_generation :
  forall url options n route w,
    normalizeRequest url options = Ret n ->
    has_signal (nr_options n) = false ->
    fst (executeRouter (nr_url n) (nr_options n) (nr_request n) w) =
      Ret route ->
    fst (fetchHandler normalizeRequest responseBuilder url options w) =
      Ret (fst (generateResponse responseBuilder route (nr_url n)
                  (nr_options n) (nr_request n)
                  (snd (holdingPush
                          (snd (executeRouter (nr_url n) (nr_options n)
                                  (nr_request n) w)))))).
Proof.
  intros url options n route w N A E.
  destruct (fetchHandler_routed_from url options w n route N E)
    as (w1 & Mk & _ & _ & _ & ->).
  destruct (executor_outcome responseBuilder route (nr_url n) (nr_options n)
              (nr_request n) (length (_holdingPromises (mock w)))
              (snd (holdingPush w1))) as [_ B].
  destruct (B (no_signal_not_aborted _ A)) as [B1 _]. rewrite B1. f_equal.
  apply generateResponse_world. cbn. now rewrite Mk.
Qed.

End MoreHandlerFacts.

(** ** [resolve] when its loop reaches no callable *)

Lemma resolve_no_callable route url options request w :
  (forall name throws body,
     await (mr_response route) <> Fulfilled (VFunction name throws body)) ->
  fst (resolve route url options request w) =
    match await (mr_response route) with
    | Fulfilled v => match then_is_function v with
                     | Throw e => Rejected e
                     | Ret _ => Fulfilled v
                     end
    | Rejected e => Rejected e
    | Pending => Pending
    end /\
  invocations (log (snd (resolve route url options request w))) =
    invocations (log w).
Proof.
  intros H. unfold resolve, resolve_fuel. cbn [resolve_loop].
  destruct (mr_response route) as [ | | | | | | | |st] eqn:R;
    try (unfold_m; cbn; rewrite ?invocations_app; cbn;
         rewrite ?app_nil_r; split; reflexivity).
  - exfalso. exact (H _ _ _ eq_refl).
  - cbn [is_function then_is_function]. unfold_m. cbn [await] in *.
    destruct st as [v| |];
      try (cbn; rewrite ?invocations_app; cbn; rewrite ?app_nil_r;
           split; reflexivity).
    destruct (await v) as [v'| |] eqn:A;
      try (cbn; rewrite ?invocations_app; cbn; rewrite ?app_nil_r;
           split; reflexivity).
    pose proof (await_settled _ _ A) as S.
    destruct v';
      try (cbn; rewrite ?invocations_app; cbn; rewrite ?app_nil_r;
           split; reflexivity).
    + exfalso. exact (H _ _ _ eq_refl).
    + exfalso. apply S. reflexivity.
Qed.

(** X8: whatever the response descriptor, [resolve] calls at most one
    function: none when its loop reaches no callable, one otherwise; what
    that function returns is not called. *)
Theorem resolve_calls_at_most_once :
  forall route url options request w,
  exists l,
    invocations (log (snd (resolve route url options request w))) =
      invocations (log w) ++ l /\
    length l <= 1 /\
    (l = [] <->
     forall name throws body,
       await (mr_response route) <> Fulfilled (VFunction name throws body)).
Proof.
  intros route url options request w.
  assert (D : (exists name throws body,
                 await (mr_response route) =
                   Fulfilled (VFunction name throws body)) \/
              (forall name throws body,
                 await (mr_response route) <>
                   Fulfilled (VFunction name throws body))).
  { destruct (await (mr_response route)) as [v| |];
      try (right; intros; discriminate).
    destruct v; try (right; intros; discriminate).
    left. eauto. }
  destruct D as [(name & throws & body & A) | N].
  - destruct (resolve_callable route url options request w name throws body A)
      as [_ I].
    eexists. split; [exact I|]. split; [cbn; lia|].
    split; [discriminate|]. intros H. now destruct (H _ _ _ A).
  - destruct (resolve_no_callable route url options request w N) as [_ I].
    exists []. rewrite app_nil_r. split; [exact I|]. split; [cbn; lia|].
    split; auto.
Qed.

(** X9: a response that is a plain value (not callable, not [null] or
    [undefined]), or a promise that settles with one, however deeply nested,
    resolves to exactly that value, and nothing is called. *)
Theorem resolve_plain_value :
  forall route url options request w v,
    await (mr_response route) = Fulfilled v ->
    is_function v = false ->
    ~ nullish v ->
    fst (resolve route url options request w) = Fulfilled v /\
    invocations (log (snd (resolve route url options request w))) =
      invocations (log w).
Proof.
  intros route url options request w v A F N.
  destruct (resolve_no_callable route url options request w) as [R I].
  { intros name throws body E. rewrite A in E. injection E as ->.
    discriminate. }
  split; [|exact I]. rewrite R, A.
  destruct v; try reflexivity; exfalso; apply N; [left | right]; reflexivity.
Qed.

Lemma resolve_plain_value_witness :
  fst (resolve (RouteObject (Sample.users
                               (VThenable (Fulfilled
                                  (VThenable (Fulfilled Sample.ok))))))
         "/users" None None (Sample.world [])) = Fulfilled Sample.ok.
Proof.
  refine (proj1 (resolve_plain_value
                   (RouteObject (Sample.users
                                   (VThenable (Fulfilled
                                      (VThenable (Fulfilled Sample.ok))))))
                   "/users" None None (Sample.world [])
                   Sample.ok eq_refl eq_refl _)).
  intros [H | H]; discriminate H.
Defined.

Section MoreGenerateResponse.

Variable responseBuilder :
  string -> value -> FetchMock -> MatchResult -> result value value.

(** X5: a terminal value that is already a Response, with no truthy
    [throws], is what [generateResponse] fulfils with, as it is; the Response
    Builder is not called. *)
Theorem premade_response_is_returned :
  forall route url options request w throws label,
    truthy throws = false ->
    fst (resolve route url options request w) =
      Fulfilled (VObject throws true label) ->
    let g := generateResponse responseBuilder route url options request w in
    fst g = Fulfilled (VObject throws true label) /\
    builds (log (snd g)) = builds (log w).
Proof.
  intros route url options request w throws label T R g. subst g.
  rewrite (generateResponse_terminal _ _ _ _ _ _ _ R).
  destruct (resolve_frame route url options request w) as [_ B].
  cbn. rewrite T. cbn.
  split; [reflexivity|]. rewrite builds_app, B. apply app_nil_r.
Qed.

(** X6: a terminal value that is neither an error marker nor a Response goes
    to the Response Builder, once, with the url and the match result, and
    the mock as [this]; what the builder returns settles the promise, and
    what it throws rejects it, unchanged. *)
Theorem other_values_are_built :
  forall route url options request w response throws,
    fst (resolve route url options request w) = Fulfilled response ->
    get_throws response = Ret throws ->
    truthy throws && negb (is_function response) = false ->
    isPrototypeOf_Response response = false ->
    let g := generateResponse responseBuilder route url options request w in
    fst g = async_completion (responseBuilder url response (mock w) route) /\
    builds (log (snd g)) = builds (log w) ++ [(url, response)] /\
    (forall e, responseBuilder url response (mock w) route = Throw e ->
               fst g = Rejected e).
Proof.
  intros route url options request w response throws R T M P g. subst g.
  rewrite (generateResponse_terminal _ _ _ _ _ _ _ R).
  destruct (resolve_frame route url options request w) as [_ B].
  rewrite T, M, P. cbn.
  split; [reflexivity|]. split; [now rewrite builds_app, B|].
  now intros e ->.
Qed.

(** X7: failures of the response descriptor reach the caller unchanged.  A
    promise response that rejects, and a responder function that throws or
    whose promise rejects, make [generateResponse] reject with that very
    value; the Response Builder is not called, and in the first case no
    function is. *)
Theorem failures_propagate :
  forall route url options request w e,
    let g := generateResponse responseBuilder route url options request w in
    (await (mr_response route) = Rejected e ->
       fst g = Rejected e /\
       invocations (log (snd g)) = invocations (log w) /\
       builds (log (snd g)) = builds (log w)) /\
    (forall name throws body,
       await (mr_response route) = Fulfilled (VFunction name throws body) ->
       async_completion
         (body (if mr_responseIsFetch route
                then match request with
                     | Some rq => Args1 rq
                     | None => Args2 url options
                     end
                else Args3 url options request)) = Rejected e ->
       fst g = Rejected e /\
       builds (log (snd g)) = builds (log w)).
Proof.
  intros route url options request w e g. subst g.
  destruct (resolve_frame route url options request w) as [_ B].
  split.
  - intros A.
    destruct (resolve_no_callable route url options request w) as [R I].
    { intros name throws body E. rewrite A in E. discriminate. }
    rewrite A in R.
    rewrite (generateResponse_rejected _ _ _ _ _ _ _ R). auto.
  - intros name throws body A C.
    destruct (resolve_callable route url options request w name throws body A)
      as [R _].
    cbv zeta in R. rewrite C in R.
    rewrite (generateResponse_rejected _ _ _ _ _ _ _ R). auto.
Qed.

End MoreGenerateResponse.

(** ** The log of one call *)

(** The log of the executor: its own events, then those of response
    generation, then its own again. *)
Lemma executor_log responseBuilder route url options request done_ w :
  exists w0 l1 l3,
    log w0 = log w ++ l1 /\
    Forall (fun e => executor_event e = true) l1 /\
    (already_aborted options = false -> mock w0 = mock w) /\
    log (snd (executor responseBuilder route url options request done_ w)) =
      log (snd (generateResponse responseBuilder route url options request w0))
      ++ l3 /\
    Forall (fun e => executor_event e = true) l3.
Proof.
  unfold executor.
  destruct options as [[m [[[|]]|]]|]; cbn [already_aborted aborted];
    unfold_m; unfold abort, rej, res, done; unfold_m; run_m;
    match goal with |- context [generateResponse ?a ?b ?c ?d ?e ?f] =>
      exists f;
      destruct (generateResponse a b c d e f) as [[v|e'|] w2]
    end;
    run_m; rewrite <- ?app_assoc;
    eexists; eexists;
    (split; [first [reflexivity | symmetry; apply app_nil_r]|]);
    (split; [repeat constructor|]);
    (split; [first [reflexivity | discriminate]|]);
    (split; [first [reflexivity | symmetry; apply app_nil_r]|]);
    repeat constructor.
Qed.

Lemma resolve_one_call route url options request w :
  exists l,
    invocations (log (snd (resolve route url options request w))) =
      invocations (log w) ++ l /\
    length l <= 1.
Proof.
  assert (D : (exists name throws body,
                 await (mr_response route) =
                   Fulfilled (VFunction name throws body)) \/
              (forall name throws body,
                 await (mr_response route) <>
                   Fulfilled (VFunction name throws body))).
  { destruct (await (mr_response route)) as [v| |];
      try (right; intros; discriminate).
    destruct v; try (right; intros; discriminate).
    left. eauto. }
  destruct D as [(name & throws & body & A) | N].
  - destruct (resolve_callable route url options request w name throws body A)
      as [_ I].
    eexists. split; [exact I | cbn; lia].
  - destruct (resolve_no_callable route url options request w N) as [_ I].
    exists []. rewrite app_nil_r. split; [exact I | cbn; lia].
Qed.

(** [generateResponse] calls nothing of its own, and builds at most once. *)
Lemma generateResponse_log responseBuilder route url options request w :
  let g := generateResponse responseBuilder route url options request w in
  invocations (log (snd g)) =
    invocations (log (snd (resolve route url options request w))) /\
  exists lb, builds (log (snd g)) = builds (log w) ++ lb /\ length lb <= 1.
Proof.
  cbv zeta.
  destruct (resolve_frame route url options request w) as [_ B].
  destruct (fst (resolve route url options request w)) as [v|e|] eqn:R.
  - rewrite (generateResponse_terminal _ _ _ _ _ _ _ R).
    destruct (get_throws v) as [t|x].
    + destruct (truthy t && negb (is_function v));
        [|destruct (isPrototypeOf_Response v)];
        cbn [snd emit log]; rewrite invocations_app, builds_app, B; cbn;
        (split; [apply app_nil_r|]);
        eexists; (split; [reflexivity | cbn; lia]).
    + cbn [snd]. split; [reflexivity|].
      exists []. rewrite app_nil_r. split; [exact B | cbn; lia].
  - rewrite (generateResponse_rejected _ _ _ _ _ _ _ R). cbn [snd].
    split; [reflexivity|].
    exists []. rewrite app_nil_r. split; [exact B | cbn; lia].
  - rewrite (generateResponse_pending _ _ _ _ _ _ R). cbn [snd].
    split; [reflexivity|].
    exists []. rewrite app_nil_r. split; [exact B | cbn; lia].
Qed.

(** The calls and builds of the executor are those of response generation. *)
Lemma executor_effects responseBuilder route url options request done_ w :
  let r := executor responseBuilder route url options request done_ w in
  exists w0,
    (already_aborted options = false -> mock w0 = mock w) /\
    invocations (log w0) = invocations (log w) /\
    builds (log w0) = builds (log w) /\
    invocations (log (snd r)) =
      invocations (log (snd (resolve route url options request w0))) /\
    builds (log (snd r)) =
      builds (log (snd (generateResponse responseBuilder route url options
                          request w0))).
Proof.
  cbv zeta.
  destruct (executor_log responseBuilder route url options request done_ w)
    as (w0 & l1 & l3 & L1 & F1 & Mk & L3 & F3).
  destruct (executor_events_quiet _ F1) as (I1 & B1 & _).
  destruct (executor_events_quiet _ F3) as (I3 & B3 & _).
  destruct (generateResponse_log responseBuilder route url options request w0)
    as [G _].
  exists w0. split; [exact Mk|].
  rewrite L3, L1, !invocations_app, !builds_app, I1, B1, I3, B3, !app_nil_r.
  rewrite <- G. auto.
Qed.

(** ** [getNativeFetch] and the warning of an unmatched call *)

(** X1: [getNativeFetch] gives [realFetch] when it is set; otherwise
    [config.fetch], and only on a sandboxed instance; otherwise it throws.
    It changes nothing. *)
Theorem getNativeFetch_precedence :
  forall w,
    let m := mock w in
    snd (getNativeFetch w) = w /\
    (truthy (realFetch m) = true ->
     fst (getNativeFetch w) = Ret (realFetch m)) /\
    (truthy (realFetch m) = false -> truthy (isSandbox m) = true ->
     truthy (fetch (config m)) = true ->
     fst (getNativeFetch w) = Ret (fetch (config m))) /\
    (truthy (realFetch m) = false ->
     truthy (isSandbox m) = false \/ truthy (fetch (config m)) = false ->
     fst (getNativeFetch w) =
       Throw (Error "fetch-mock: Falling back to network only available on gloabl fetch-mock, or by setting config.fetch on sandboxed fetch-mock")).
Proof.
  intros w m. subst m. split; [apply getNativeFetch_world|].
  unfold getNativeFetch, js_or, js_and. unfold_m. cbn [fst mock].
  split; [|split].
  - intros T. rewrite T. cbn. now rewrite T.
  - intros R S T. rewrite R, S. cbn. now rewrite T.
  - intros R [S | F]; rewrite R.
    + rewrite S. cbn. now rewrite S.
    + destruct (truthy (isSandbox (mock w))) eqn:S; cbn;
        [rewrite F | rewrite S]; reflexivity.
Qed.

Lemma getNativeFetch_precedence_witness :
  fst (getNativeFetch (Sample.passthrough [])) = Ret Sample.echo /\
  fst (getNativeFetch (Sample.world [])) =
    Throw (Error "fetch-mock: Falling back to network only available on gloabl fetch-mock, or by setting config.fetch on sandboxed fetch-mock").
Proof.
  split.
  - destruct (getNativeFetch_precedence (Sample.passthrough []))
      as (_ & H & _).
    exact (H eq_refl).
  - destruct (getNativeFetch_precedence (Sample.world [])) as (_ & _ & _ & H).
    exact (H eq_refl (or_introl eq_refl)).
Defined.

Lemma executeRouter_always_world url options request w :
  strict_eq_string (fallbackToNetwork (config (mock w))) "always" = true ->
  snd (executeRouter url options request w) =
    emit (Debug "  Configured with fallbackToNetwork=always - passing through to fetch")
      (emit (Debug "Attempting to match request to defined routes") w).
Proof.
  intros A. unfold executeRouter. unfold_m. run_m. rewrite A. run_m.
  match goal with |- context [getNativeFetch (Build_World ?m ?l)] =>
    rewrite (getNativeFetch_run (Build_World m l) w eq_refl eq_refl eq_refl)
  end.
  destruct (fst (getNativeFetch w)); reflexivity.
Qed.

(** X11: [executeRouter] writes a warning exactly when [warnOnFallback] is
    set, the configuration is not ['always'] and no route matches; there is
    then one warning, naming the method ("GET" when the options give none)
    and the url. *)
Theorem warning_only_when_unmatched :
  forall url options request w,
    let m := mock w in
    warnings (log (snd (executeRouter url options request w))) =
      warnings (log w) ++
      if negb (strict_eq_string (fallbackToNetwork (config m)) "always") &&
         warnOnFallback (config m) &&
         match array_find (fun route => matcher route url options request)
                 (routes m) with
         | Ret None => true
         | _ => false
         end
      then [("Unmatched " ++ method_or_GET options ++ " to " ++ url)%string]
      else [].
Proof.
  intros url options request w m. subst m.
  destruct (strict_eq_string (fallbackToNetwork (config (mock w))) "always")
    eqn:A.
  - rewrite (executeRouter_always_world _ _ _ _ A). unfold emit. cbn [log].
    rewrite !warnings_app. cbn. now rewrite !app_nil_r.
  - destruct (array_find _ (routes (mock w))) as [[route|]|e] eqn:F.
    + rewrite (executeRouter_matched _ _ _ _ _ A F). cbn.
      rewrite warnings_app, andb_false_r. reflexivity.
    + rewrite (executeRouter_unmatched _ _ _ _ A F).
      unfold unmatched_world.
      destruct (truthy (fallbackResponse (mock w)));
        [|destruct (negb (truthy (fallbackToNetwork (config (mock w)))))];
        destruct (warnOnFallback (config (mock w)));
        cbn; rewrite ?warnings_app; cbn; rewrite ?app_nil_r; reflexivity.
    + rewrite (executeRouter_matcher_throws _ _ _ _ _ A F). cbn.
      rewrite warnings_app, andb_false_r. reflexivity.
Qed.

(** ** One call of the entry point, end to end *)

Section EndToEnd.

Variable normalizeRequest :
  string + Request -> option Options -> result value NormalizedRequest.
Variable responseBuilder :
  string -> value -> FetchMock -> MatchResult -> result value value.

Lemma getNativeFetch_entered w :
  fst (getNativeFetch (entered w)) = fst (getNativeFetch w).
Proof.
  now rewrite (getNativeFetch_run (entered w) w eq_refl eq_refl eq_refl).
Qed.

(** X2: when the network is to be used and no network function can be
    reached, the entry point throws the error of [getNativeFetch]
    synchronously and registers no holding promise.  With ['always'] nothing
    is recorded; on the fallback of an unmatched call the [isUnmatched]
    record is already in [_calls]. *)
Theorem missing_network_function_throws :
  forall url options n w e,
    normalizeRequest url options = Ret n ->
    fst (getNativeFetch w) = Throw e ->
    let m := mock w in
    let r := fetchHandler normalizeRequest responseBuilder url options w in
    (strict_eq_string (fallbackToNetwork (config m)) "always" = true ->
     fst r = Throw e /\
     _calls (mock (snd r)) = _calls m /\
     _holdingPromises (mock (snd r)) = _holdingPromises m) /\
    (strict_eq_string (fallbackToNetwork (config m)) "always" = false ->
     array_find
       (fun route => matcher route (nr_url n) (nr_options n) (nr_request n))
       (routes m) = Ret None ->
     truthy (fallbackResponse m) = false ->
     truthy (fallbackToNetwork (config m)) = true ->
     fst r = Throw e /\
     _calls (mock (snd r)) =
       _calls m ++ [unmatched_call (nr_url n) (nr_options n) (nr_request n)] /\
     _holdingPromises (mock (snd r)) = _holdingPromises m).
Proof.
  intros url options n w e N G m r. subst m r. split.
  - intros A.
    destruct (executeRouter_always (nr_url n) (nr_options n) (nr_request n)
                (entered w) A) as [E1 E2].
    rewrite getNativeFetch_entered, G in E1.
    destruct (executeRouter (nr_url n) (nr_options n) (nr_request n)
                (entered w)) as [x w1] eqn:E. cbn [fst snd] in *. subst x.
    rewrite (fetchHandler_not_routed _ _ _ _ _ _ _ _ N E). cbn [fst snd].
    rewrite E2. auto.
  - intros A F T1 T2.
    pose proof (executeRouter_unmatched (nr_url n) (nr_options n)
                  (nr_request n) (entered w) A F) as E.
    cbv zeta in E. unfold entered in E. rewrite ?mock_emit in E.
    rewrite T1, T2 in E. cbn [negb] in E.
    fold (entered w) in E. rewrite getNativeFetch_entered, G in E.
    rewrite (fetchHandler_not_routed _ _ _ _ _ _ _ _ N E). auto.
Qed.

(** X10: a call of the entry point changes nothing of the mock but its two
    arrays, whatever the outcome; each of them keeps what it held and gains
    at most one entry. *)
Theorem fetch_changes_only_the_arrays :
  forall url options w,
    let m' := mock (snd (fetchHandler normalizeRequest responseBuilder
                           url options w)) in
    with_calls [] (with_holdingPromises [] m') =
      with_calls [] (with_holdingPromises [] (mock w)) /\
    (exists cs, _calls m' = _calls (mock w) ++ cs /\ length cs <= 1) /\
    (exists hs, _holdingPromises m' = _holdingPromises (mock w) ++ hs /\
                length hs <= 1).
Proof.
  intros url options w m'. subst m'.
  destruct (normalizeRequest url options) as [n|e] eqn:N.
  2:{ rewrite (fetchHandler_not_normalized _ _ _ _ _ _ N). cbn.
      split; [reflexivity|].
      split; exists []; rewrite app_nil_r; auto. }
  destruct (executeRouter_steps (nr_url n) (nr_options n) (nr_request n)
              (entered w)) as (l & _ & _ & S).
  assert (C : exists cs,
            _calls (mock (snd (executeRouter (nr_url n) (nr_options n)
                                 (nr_request n) (entered w)))) =
            _calls (mock w) ++ cs /\ length cs <= 1).
  { destruct (strict_eq_string (fallbackToNetwork (config (mock w))) "always")
      eqn:A.
    - destruct (executeRouter_always (nr_url n) (nr_options n) (nr_request n)
                  (entered w) A) as [_ E2].
      exists []. rewrite E2, app_nil_r. auto.
    - eexists. split; [apply (executeRouter_calls _ _ _ (entered w) A)|].
      apply call_records_length. }
  destruct (executeRouter (nr_url n) (nr_options n) (nr_request n) (entered w))
    as [[route|e] w1] eqn:E; cbn [snd] in *.
  - rewrite (fetchHandler_routed _ _ _ _ _ _ _ _ N E).
    set (w2 := snd (holdingPush w1)).
    destruct (executor_steps same_but_holdingPromises responseBuilder route
                (nr_url n) (nr_options n) (nr_request n)
                (length (_holdingPromises (mock w1)))
                ltac:(steps_side) ltac:(steps_side) ltac:(steps_side) w2)
      as (l' & _ & _ & S').
    destruct (executor_outcome responseBuilder route (nr_url n) (nr_options n)
                (nr_request n) (length (_holdingPromises (mock w1))) w2)
      as [Ab Na].
    pose proof (same_but_calls_fields _ _ S) as (_ & _ & _ & Sh).
    pose proof (same_but_holdingPromises_fields _ _ S') as (_ & _ & _ & Sc).
    cbn [entered emit mock] in Sh.
    split; [|split].
    + unfold same_but_calls, same_but_holdingPromises in *.
      apply (f_equal (with_holdingPromises [])) in S.
      apply (f_equal (with_calls [])) in S'.
      unfold with_calls, with_holdingPromises in *. cbn in S, S' |- *.
      congruence.
    + rewrite <- Sc. exact C.
    + assert (Hh : _holdingPromises (mock w2) =
                   _holdingPromises (mock w) ++ [Pending])
        by (subst w2; cbn; now rewrite Sh).
      rewrite Hh, <- Sh, resolve_at_last in Ab, Na. rewrite <- Sh.
      destruct (already_aborted (nr_options n)).
      * destruct (Ab eq_refl) as [_ ->]. eexists. split; [reflexivity|].
        cbn. lia.
      * destruct (Na eq_refl) as [_ ->].
        destruct (settled _); eexists; (split; [reflexivity | cbn; lia]).
  - rewrite (fetchHandler_not_routed _ _ _ _ _ _ _ _ N E). cbn [snd].
    pose proof (same_but_calls_fields _ _ S) as (_ & _ & _ & Sh).
    cbn [entered emit mock] in Sh.
    split; [|split].
    + unfold same_but_calls in S.
      apply (f_equal (with_holdingPromises [])) in S.
      unfold with_calls, with_holdingPromises in *. cbn in S |- *.
      congruence.
    + exact C.
    + exists []. rewrite app_nil_r, <- Sh. auto.
Qed.

Lemma fetchHandler_not_routed_from url options w n e :
  normalizeRequest url options = Ret n ->
  fst (executeRouter (nr_url n) (nr_options n) (nr_request n) w) = Throw e ->
  let r := fetchHandler normalizeRequest responseBuilder url options w in
  fst r = Throw e /\
  invocations (log (snd r)) = invocations (log w) /\
  builds (log (snd r)) = builds (log w).
Proof.
  intros N E.
  rewrite (executeRouter_log _ _ _ w (entered w) eq_refl) in E.
  destruct (executeRouter_steps (nr_url n) (nr_options n) (nr_request n)
              (entered w)) as (l & L & F & _).
  destruct (routing_events_quiet _ F) as [I B].
  destruct (executeRouter (nr_url n) (nr_options n) (nr_request n) (entered w))
    as [x w1] eqn:E'. cbn [fst snd] in *. subst x.
  cbv zeta. rewrite (fetchHandler_not_routed _ _ _ _ _ _ _ _ N E').
  cbn [fst snd]. rewrite L. unfold entered, emit. cbn [log].
  rewrite !invocations_app, !builds_app, I, B. cbn.
  now rewrite !app_nil_r.
Qed.

Lemma holdingPush_log w1 :
  invocations (log (snd (holdingPush w1))) = invocations (log w1) /\
  builds (log (snd (holdingPush w1))) = builds (log w1).
Proof.
  cbn. rewrite invocations_app, builds_app. cbn. now rewrite !app_nil_r.
Qed.

(** X12: in one call of the entry point at most one responder or network
    function is called and the Response Builder is called at most once,
    whatever the routes, the response descriptor and the outcome. *)
Theorem one_call_and_one_build_at_most :
  forall url options w,
    let r := fetchHandler normalizeRequest responseBuilder url options w in
    exists li lb,
      invocations (log (snd r)) = invocations (log w) ++ li /\
      length li <= 1 /\
      builds (log (snd r)) = builds (log w) ++ lb /\
      length lb <= 1.
Proof.
  intros url options w r. subst r.
  destruct (normalizeRequest url options) as [n|e] eqn:N.
  2:{ rewrite (fetchHandler_not_normalized _ _ _ _ _ _ N). cbn.
      exists [], []. rewrite invocations_app, builds_app. cbn. auto. }
  destruct (fst (executeRouter (nr_url n) (nr_options n) (nr_request n) w))
    as [route|e] eqn:E.
  - destruct (fetchHandler_routed_from normalizeRequest responseBuilder
                url options w n route N E)
      as (w1 & _ & _ & I1 & B1 & ->).
    destruct (holdingPush_log w1) as [I2 B2].
    destruct (executor_effects responseBuilder route (nr_url n) (nr_options n)
                (nr_request n) (length (_holdingPromises (mock w)))
                (snd (holdingPush w1)))
      as (w0 & _ & I0 & B0 & Ir & Br).
    destruct (resolve_one_call route (nr_url n) (nr_options n) (nr_request n)
                w0) as (li & Li & Ni).
    destruct (generateResponse_log responseBuilder route (nr_url n)
                (nr_options n) (nr_request n) w0) as (_ & lb & Lb & Nb).
    exists li, lb.
    rewrite Ir, Li, I0, I2, I1, Br, Lb, B0, B2, B1. auto.
  - destruct (fetchHandler_not_routed_from url options w n e N E)
      as (_ & I & B).
    exists [], []. rewrite I, B, !app_nil_r. auto.
Qed.

(** X13: with [fallbackToNetwork: 'always'] the network function is called
    with the original request object alone when the caller gave one, with
    [(url, options)] otherwise; nothing is recorded in [_calls].  If no
    signal came with the call and the network function yields a Response
    whose [throws] is not truthy, the caller gets that Response as it is, and
    the Response Builder is not called. *)
Theorem passthrough_hands_the_request_to_the_network :
  forall url options n w name throws body,
    normalizeRequest url options = Ret n ->
    strict_eq_string (fallbackToNetwork (config (mock w))) "always" = true ->
    fst (getNativeFetch w) = Ret (VFunction name throws body) ->
    let args := match nr_request n with
                | Some rq => Args1 rq
                | None => Args2 (nr_url n) (nr_options n)
                end in
    let r := fetchHandler normalizeRequest responseBuilder url options w in
    invocations (log (snd r)) = invocations (log w) ++ [(name, args)] /\
    _calls (mock (snd r)) = _calls (mock w) /\
    (has_signal (nr_options n) = false ->
     forall t label,
       async_completion (body args) = Fulfilled (VObject t true label) ->
       truthy t = false ->
       fst r = Ret (Fulfilled (VObject t true label)) /\
       builds (log (snd r)) = builds (log w)).
Proof.
  intros url options n w name throws body N A G args r. subst r.
  destruct (executeRouter_always (nr_url n) (nr_options n) (nr_request n) w A)
    as [E Em].
  rewrite G in E.
  set (route := Literal (VFunction name throws body) (Some true)) in *.
  destruct (fetchHandler_routed_from normalizeRequest responseBuilder
              url options w n route N E)
    as (w1 & Mk & _ & I1 & B1 & ->).
  rewrite Em in Mk.
  destruct (holdingPush_log w1) as [I2 B2].
  set (w2 := snd (holdingPush w1)) in *.
  assert (RC : forall w',
            fst (resolve route (nr_url n) (nr_options n) (nr_request n) w') =
              async_completion (body args) /\
            invocations (log (snd (resolve route (nr_url n) (nr_options n)
                                     (nr_request n) w'))) =
              invocations (log w') ++ [(name, args)]).
  { intros w'.
    exact (resolve_callable route (nr_url n) (nr_options n) (nr_request n) w'
             name throws body eq_refl). }
  destruct (executor_effects responseBuilder route (nr_url n) (nr_options n)
              (nr_request n) (length (_holdingPromises (mock w))) w2)
    as (w0 & _ & I0 & B0 & Ir & Br).
  destruct (executor_steps same_but_holdingPromises responseBuilder route
              (nr_url n) (nr_options n) (nr_request n)
              (length (_holdingPromises (mock w)))
              ltac:(steps_side) ltac:(steps_side) ltac:(steps_side) w2)
    as (l' & _ & _ & S').
  apply same_but_holdingPromises_fields in S'.
  destruct S' as (_ & _ & _ & Sc).
  split; [|split].
  - rewrite Ir, (proj2 (RC w0)), I0, I2, I1. reflexivity.
  - rewrite <- Sc. subst w2. cbn. now rewrite Mk.
  - intros Na t label C T.
    destruct (executor_outcome responseBuilder route (nr_url n) (nr_options n)
                (nr_request n) (length (_holdingPromises (mock w))) w2)
      as [_ O].
    destruct (O (no_signal_not_aborted _ Na)) as [O1 _]. rewrite O1.
    pose proof (proj1 (RC w2)) as R2. rewrite C in R2.
    pose proof (proj1 (RC w0)) as R0. rewrite C in R0.
    rewrite (generateResponse_terminal _ _ _ _ _ _ _ R2).
    rewrite Br, (generateResponse_terminal _ _ _ _ _ _ _ R0).
    cbn [get_throws is_function isPrototypeOf_Response negb andb].
    rewrite T. cbn [andb fst snd emit log].
    split; [reflexivity|].
    destruct (resolve_frame route (nr_url n) (nr_options n) (nr_request n) w0)
      as [_ B].
    rewrite builds_app, B, B0, B2, B1. cbn. apply app_nil_r.
Qed.

(** X14: when the response of the match never settles and no signal came
    with the call, the promise handed to the caller stays pending, the
    holding promise of the call stays unresolved in [_holdingPromises], and
    the Response Builder is not called. *)
Theorem unsettled_response_stays_in_flight :
  forall url options n route w,
    normalizeRequest url options = Ret n ->
    fst (executeRouter (nr_url n) (nr_options n) (nr_request n) w) =
      Ret route ->
    fst (resolve route (nr_url n) (nr_options n) (nr_request n) w) = Pending ->
    has_signal (nr_options n) = false ->
    let r := fetchHandler normalizeRequest responseBuilder url options w in
    fst r = Ret Pending /\
    _holdingPromises (mock (snd r)) = _holdingPromises (mock w) ++ [Pending] /\
    builds (log (snd r)) = builds (log w).
Proof.
  intros url options n route w N E R Na r. subst r.
  destruct (fetchHandler_routed_from normalizeRequest responseBuilder
              url options w n route N E)
    as (w1 & _ & Hh & _ & B1 & ->).
  destruct (holdingPush_log w1) as [_ B2].
  assert (H2 : _holdingPromises (mock (snd (holdingPush w1))) =
               _holdingPromises (mock w) ++ [Pending])
    by (cbn; now rewrite Hh).
  set (w2 := snd (holdingPush w1)) in *.
  destruct (executor_outcome responseBuilder route (nr_url n) (nr_options n)
              (nr_request n) (length (_holdingPromises (mock w))) w2)
    as [_ O].
  destruct (O (no_signal_not_aborted _ Na)) as [O1 O2].
  destruct (executor_effects responseBuilder route (nr_url n) (nr_options n)
              (nr_request n) (length (_holdingPromises (mock w))) w2)
    as (w0 & _ & _ & B0 & _ & Br).
  assert (R2 : fst (resolve route (nr_url n) (nr_options n) (nr_request n) w2)
               = Pending)
    by now rewrite (resolve_world _ _ _ _ w2 w).
  assert (R0 : fst (resolve route (nr_url n) (nr_options n) (nr_request n) w0)
               = Pending)
    by now rewrite (resolve_world _ _ _ _ w0 w).
  rewrite (generateResponse_pending _ _ _ _ _ _ R2) in O1, O2.
  cbn [fst settled] in O1, O2.
  split; [exact O1|]. split; [now rewrite O2|].
  rewrite Br, (generateResponse_pending _ _ _ _ _ _ R0). cbn [snd].
  destruct (resolve_frame route (nr_url n) (nr_options n) (nr_request n) w0)
    as [_ B].
  now rewrite B, B0, B2, B1.
Qed.

(** X15: a call that matches a route whose response is a plain value, or a
    promise for one, with no [throws] and not a Response, and that brings no
    signal: the Response Builder is called once, with the normalized
    url, that value, the matched route, and the mock in which the call is
    already recorded and its holding promise registered; the caller gets
    what the builder returns; no function is called. *)
Theorem matched_plain_response_is_built :
  forall url options n w route v t,
    normalizeRequest url options = Ret n ->
    strict_eq_string (fallbackToNetwork (config (mock w))) "always" = false ->
    array_find (fun r => matcher r (nr_url n) (nr_options n) (nr_request n))
      (routes (mock w)) = Ret (Some route) ->
    has_signal (nr_options n) = false ->
    await (response route) = Fulfilled v ->
    is_function v = false -> ~ nullish v ->
    get_throws v = Ret t -> truthy t = false ->
    isPrototypeOf_Response v = false ->
    let seen :=
      with_holdingPromises (_holdingPromises (mock w) ++ [Pending])
        (with_calls
           (_calls (mock w) ++
            [matched_call (nr_url n) (nr_options n) (nr_request n) route])
           (mock w)) in
    let r := fetchHandler normalizeRequest responseBuilder url options w in
    fst r = Ret (async_completion
                   (responseBuilder (nr_url n) v seen (RouteObject route))) /\
    builds (log (snd r)) = builds (log w) ++ [(nr_url n, v)] /\
    invocations (log (snd r)) = invocations (log w).
Proof.
  intros url options n w route v t N A F Na Aw Fv Nv T Tt P seen r.
  subst seen r.
  pose proof (executeRouter_matched _ _ _ _ _ A F) as E.
  destruct (fetchHandler_routed_from normalizeRequest responseBuilder
              url options w n (RouteObject route) N)
    as (w1 & Mk & Hh & I1 & B1 & ->); [now rewrite E|].
  rewrite E in Mk. cbn [snd mock] in Mk.
  destruct (holdingPush_log w1) as [I2 B2].
  assert (M2 : mock (snd (holdingPush w1)) =
               with_holdingPromises (_holdingPromises (mock w) ++ [Pending])
                 (with_calls
                    (_calls (mock w) ++
                     [matched_call (nr_url n) (nr_options n) (nr_request n)
                        route]) (mock w)))
    by (cbn; now rewrite Hh, Mk).
  set (w2 := snd (holdingPush w1)) in *.
  assert (RP : forall w',
            fst (resolve (RouteObject route) (nr_url n) (nr_options n)
                   (nr_request n) w') = Fulfilled v /\
            invocations (log (snd (resolve (RouteObject route) (nr_url n)
                                     (nr_options n) (nr_request n) w'))) =
              invocations (log w')).
  { intros w'.
    destruct (resolve_no_callable (RouteObject route) (nr_url n) (nr_options n)
                (nr_request n) w') as [R I].
    { intros name throws body X. cbn [mr_response] in X. rewrite Aw in X.
      injection X as ->. discriminate. }
    split; [|exact I]. rewrite R. cbn [mr_response]. rewrite Aw.
    destruct v; try reflexivity; exfalso; apply Nv; [left | right];
      reflexivity. }
  destruct (executor_outcome responseBuilder (RouteObject route) (nr_url n)
              (nr_options n) (nr_request n)
              (length (_holdingPromises (mock w))) w2) as [_ O].
  destruct (O (no_signal_not_aborted _ Na)) as [O1 _].
  destruct (executor_effects responseBuilder (RouteObject route) (nr_url n)
              (nr_options n) (nr_request n)
              (length (_holdingPromises (mock w))) w2)
    as (w0 & _ & I0 & B0 & Ir & Br).
  split; [|split].
  - rewrite O1, (generateResponse_terminal _ _ _ _ _ _ _ (proj1 (RP w2))).
    rewrite T, Tt, P, M2. reflexivity.
  - rewrite Br, (generateResponse_terminal _ _ _ _ _ _ _ (proj1 (RP w0))).
    rewrite T, Tt, P. cbn [andb snd emit log].
    destruct (resolve_frame (RouteObject route) (nr_url n) (nr_options n)
                (nr_request n) w0) as [_ B].
    now rewrite builds_app, B, B0, B2, B1.
  - now rewrite Ir, (proj2 (RP w0)), I0, I2, I1.
Qed.

End EndToEnd.

(** ** Instances of the further properties *)

Lemma holding_promise_follows_settlement_witness :
  exists p,
    fst (fetchHandler Sample.normalize Sample.build (inl "/users") None
           (Sample.world [Sample.users More.never])) = Ret p /\
    _holdingPromises
      (mock (snd (fetchHandler Sample.normalize Sample.build (inl "/users")
                    None (Sample.world [Sample.users More.never])))) =
      [] ++ [if settled p then Fulfilled tt else Pending].
Proof.
  exact (holding_promise_follows_settlement Sample.normalize Sample.build
           (inl "/users") None _ (RouteObject (Sample.users More.never))
           (Sample.world [Sample.users More.never]) eq_refl eq_refl).
Defined.

Lemma fetch_follows_generation_witness :
  fst (fetchHandler Sample.normalize Sample.build (inl "/users") None
         (Sample.world [Sample.users More.promising])) =
    Ret (Fulfilled (VObject VUndefined true "/users")).
Proof.
  exact (fetch_follows_generation Sample.normalize Sample.build
           (inl "/users") None _ (RouteObject (Sample.users More.promising))
           (Sample.world [Sample.users More.promising])
           eq_refl eq_refl eq_refl).
Defined.

Lemma premade_response_is_returned_witness :
  fst (generateResponse Sample.build
         (RouteObject (Sample.users More.network_response)) "/users" None None
         (Sample.world [])) = Fulfilled More.network_response.
Proof.
  exact (proj1 (premade_response_is_returned Sample.build
                  (RouteObject (Sample.users More.network_response))
                  "/users" None None (Sample.world [])
                  VUndefined "from network" eq_refl eq_refl)).
Defined.

Lemma other_values_are_built_witness :
  builds (log (snd (generateResponse Sample.build
                      (RouteObject (Sample.users More.promising)) "/users"
                      None None (Sample.world [])))) =
    [("/users", More.body)].
Proof.
  destruct (other_values_are_built Sample.build
              (RouteObject (Sample.users More.promising)) "/users" None None
              (Sample.world []) More.body VUndefined
              eq_refl eq_refl eq_refl eq_refl) as (_ & H & _).
  exact H.
Defined.

Lemma failures_propagate_witness :
  fst (generateResponse Sample.build (RouteObject (Sample.users More.rejected))
         "/users" None None (Sample.world [])) = Rejected Sample.boom /\
  fst (generateResponse Sample.build (RouteObject (Sample.users More.failing))
         "/users" None None (Sample.world [])) = Rejected Sample.boom.
Proof.
  split.
  - destruct (failures_propagate Sample.build
                (RouteObject (Sample.users More.rejected)) "/users" None None
                (Sample.world []) Sample.boom) as [H _].
    exact (proj1 (H eq_refl)).
  - destruct (failures_propagate Sample.build
                (RouteObject (Sample.users More.failing)) "/users" None None
                (Sample.world []) Sample.boom) as [_ H].
    exact (proj1 (H _ _ _ eq_refl eq_refl)).
Defined.

Lemma missing_network_function_throws_witness :
  fst (fetchHandler Sample.normalize Sample.build (inl "/users") None
         More.always_without_network) =
    Throw (Error "fetch-mock: Falling back to network only available on gloabl fetch-mock, or by setting config.fetch on sandboxed fetch-mock") /\
  _calls (mock (snd (fetchHandler Sample.normalize Sample.build (inl "/users")
                       None More.fallback_without_network))) =
    [unmatched_call "/users" None None].
Proof.
  split.
  - destruct (missing_network_function_throws Sample.normalize Sample.build
                (inl "/users") None _ More.always_without_network _
                eq_refl eq_refl) as [H _].
    exact (proj1 (H eq_refl)).
  - destruct (missing_network_function_throws Sample.normalize Sample.build
                (inl "/users") None _ More.fallback_without_network _
                eq_refl eq_refl) as [_ H].
    destruct (H eq_refl eq_refl eq_refl eq_refl) as (_ & C & _). exact C.
Defined.

Lemma passthrough_hands_the_request_to_the_network_witness :
  let r := fetchHandler Sample.normalize Sample.build (inr Sample.post) None
             More.networked in
  invocations (log (snd r)) = [("fetch", Args1 Sample.post)] /\
  fst r = Ret (Fulfilled More.network_response).
Proof.
  cbv zeta.
  destruct (passthrough_hands_the_request_to_the_network Sample.normalize
              Sample.build (inr Sample.post) None _ More.networked
              _ _ _ eq_refl eq_refl eq_refl) as (I & _ & H).
  split; [exact I|].
  exact (proj1 (H eq_refl VUndefined "from network" eq_refl eq_refl)).
Defined.

Lemma unsettled_response_stays_in_flight_witness :
  let r := fetchHandler Sample.normalize Sample.build (inl "/users") None
             (Sample.world [Sample.users More.never]) in
  fst r = Ret Pending /\ _holdingPromises (mock (snd r)) = [Pending].
Proof.
  cbv zeta.
  destruct (unsettled_response_stays_in_flight Sample.normalize Sample.build
              (inl "/users") None _ (RouteObject (Sample.users More.never))
              (Sample.world [Sample.users More.never])
              eq_refl eq_refl eq_refl eq_refl) as (H1 & H2 & _).
  split; [exact H1 | exact H2].
Defined.

Lemma matched_plain_response_is_built_witness :
  let r := fetchHandler Sample.normalize Sample.build (inl "/users") None
             (Sample.world [Sample.users
                              (VThenable (Fulfilled More.body))]) in
  fst r = Ret (Fulfilled (VObject VUndefined true "/users")) /\
  builds (log (snd r)) = [("/users", More.body)].
Proof.
  cbv zeta.
  destruct (matched_plain_response_is_built Sample.normalize Sample.build
              (inl "/users") None _
              (Sample.world [Sample.users (VThenable (Fulfilled More.body))])
              (Sample.users (VThenable (Fulfilled More.body)))
              More.body VUndefined
              eq_refl eq_refl eq_refl eq_refl eq_refl eq_refl)
    as (H1 & H2 & _); try reflexivity.
  - intros [H | H]; discriminate H.
  - split; [exact H1 | exact H2].
Defined.

(** ** A matcher that throws *)

Lemma find_throws {A} (p : A -> result value bool) (before : list A) (x : A)
    (after : list A) e :
  (forall y, In y before -> p y = Ret false) -> p x = Throw e ->
  array_find p (before ++ x :: after) = Throw e.
Proof.
  intros Hb Hx. induction before as [|y before IH]; simpl.
  - now rewrite Hx.
  - rewrite (Hb y (or_introl eq_refl)). apply IH.
    intros z Hz. apply Hb. now right.
Qed.

Section MatcherErrors.

Variable normalizeRequest :
  string + Request -> option Options -> result value NormalizedRequest.
Variable responseBuilder :
  string -> value -> FetchMock -> MatchResult -> result value value.

(** X16: when the configuration is not ['always'] and, in the scan of the
    routes, a matcher throws before any route has accepted the request, the
    entry point throws that very value synchronously, whatever routes come
    after; the mock is left as it was (no record in [_calls], no holding
    promise), no warning is written, and nothing is called or built. *)
Theorem matcher_error_propagates :
  forall url options n w before route after e,
    normalizeRequest url options = Ret n ->
    strict_eq_string (fallbackToNetwork (config (mock w))) "always" = false ->
    routes (mock w) = before ++ route :: after ->
    (forall r, In r before ->
       matcher r (nr_url n) (nr_options n) (nr_request n) = Ret false) ->
    matcher route (nr_url n) (nr_options n) (nr_request n) = Throw e ->
    let r := fetchHandler normalizeRequest responseBuilder url options w in
    fst r = Throw e /\
    mock (snd r) = mock w /\
    warnings (log (snd r)) = warnings (log w) /\
    invocations (log (snd r)) = invocations (log w) /\
    builds (log (snd r)) = builds (log w).
Proof.
  intros url options n w before route after e N A Hr Hb Hm r. subst r.
  assert (F : array_find
                (fun r => matcher r (nr_url n) (nr_options n) (nr_request n))
                (routes (mock (entered w))) = Throw e).
  { cbn [entered emit mock]. rewrite Hr. now apply find_throws. }
  pose proof (executeRouter_matcher_throws (nr_url n) (nr_options n)
                (nr_request n) (entered w) e A F) as E.
  rewrite (fetchHandler_not_routed _ _ _ _ _ _ _ _ N E).
  unfold entered, emit. cbn [fst snd mock log].
  rewrite !warnings_app, !invocations_app, !builds_app. cbn.
  rewrite !app_nil_r. auto.
Qed.

End MatcherErrors.

Lemma matcher_error_propagates_witness :
  let w := Sample.world [Sample.users Sample.ok; More.broken;
                         Sample.any Sample.ok] in
  let r := fetchHandler Sample.normalize Sample.build (inl "/other") None w in
  fst r = Throw Sample.boom /\ _calls (mock (snd r)) = [].
Proof.
  cbv zeta.
  destruct (matcher_error_propagates Sample.normalize Sample.build
              (inl "/other") None _
              (Sample.world [Sample.users Sample.ok; More.broken;
                             Sample.any Sample.ok])
              [Sample.users Sample.ok] More.broken [Sample.any Sample.ok]
              Sample.boom eq_refl eq_refl eq_refl)
    as (H1 & H2 & _).
  - intros r [<- | []]. reflexivity.
  - reflexivity.
  - split; [exact H1 | now rewrite H2].
Defined.
